(** * Blackjack with a tabular Q-learning agent

    A shallow embedding of [blackjack_ml_classes_and_functions.py] and the
    properties of its hand evaluator, deck, dealer policy, Q-learning core
    and training loop.

    Conventions of the embedding.
    - A Python object is a record; a method is a function that takes the
      object (and whatever else it mutates) and returns the new values.
      The classes of the source are the modules [Card], [Player],
      [Dealer], [Deck] and [AI_Player].
    - A raised exception is the [Raise] case of [result].
    - Python's [int] is [Z]; Python's [float] is idealised as an exact
      rational [Q] (no rounding, no infinities, no NaN); equality of
      computed reals is therefore [Qeq], written [==].
    - The global generator of the [random] module is an explicit stream of
      raw draws that every call consumes from the front. *)

From Stdlib Require Import Ascii String QArith Qminmax Lqa.
From stdpp Require Import gmap strings list fin_maps.

Local Open Scope Z_scope.

(** ** Python runtime: exceptions, strings, the random module *)

Module Py.

(** The exceptions the modelled code can raise. *)
Inductive exception : Set :=
| IndexError          (* list.pop on an empty list, an index out of range *)
| ValueError          (* int() on a string that is not a number *)
| UnboundLocalError.  (* a local variable read before any assignment *)

Definition exception_name (e : exception) : string :=
  match e with
  | IndexError => "IndexError"
  | ValueError => "ValueError"
  | UnboundLocalError => "UnboundLocalError"
  end.

Inductive result (A : Type) : Type :=
| Ok (a : A)
| Raise (e : exception).
Arguments Ok {A} a.
Arguments Raise {A} e.

Definition bind {A B} (m : result A) (k : A → result B) : result B :=
  match m with
  | Ok a => k a
  | Raise e => Raise e
  end.

Definition is_letter (c : ascii) : bool :=
  let n := nat_of_ascii c in
  ((65 <=? n)%nat && (n <=? 90)%nat) || ((97 <=? n)%nat && (n <=? 122)%nat).

Definition is_digit (c : ascii) : bool :=
  let n := nat_of_ascii c in (48 <=? n)%nat && (n <=? 57)%nat.

(** [str.isalpha()]: the string is not empty and every character is a
    letter.  The model knows the ASCII letters only. *)
Definition isalpha (s : string) : bool :=
  match s with
  | EmptyString => false
  | _ => forallb is_letter (list_ascii_of_string s)
  end.

Definition digit_value (c : ascii) : Z := Z.of_nat (nat_of_ascii c) - 48.

(** [int(s)] for a string of decimal digits; every other string is the
    [ValueError] case (Python also reads a sign, blanks and underscores,
    which no rank of this program has). *)
Definition int (s : string) : result Z :=
  match s with
  | EmptyString => Raise ValueError
  | _ =>
      if forallb is_digit (list_ascii_of_string s)
      then Ok (fold_left (λ acc c, 10 * acc + digit_value c)
                         (list_ascii_of_string s) 0)
      else Raise ValueError
  end.

(** The state of the generator: the raw draws still to come. *)
Definition Random : Type := nat → N.

Definition next (g : Random) : N * Random := (g 0%nat, λ n, g (S n)).

(** [random.random()]: a float in [0, 1), 53 random bits over 2^53. *)
Definition random (g : Random) : Q * Random :=
  let (raw, g') := next g in
  (Z.of_N (raw mod 2 ^ 53) # 2 ^ 53, g').

(** [_randbelow(n)], for [n > 0]: an integer in [0, n). *)
Definition randbelow (n : nat) (g : Random) : nat * Random :=
  let (raw, g') := next g in
  (N.to_nat (raw mod N.of_nat n), g').

(** [random.choice(seq)] is [seq[_randbelow(len(seq))]]
    ([IndexError] on an empty sequence). *)
Definition choice {A} (seq : list A) (g : Random) : result (A * Random) :=
  match seq with
  | [] => Raise IndexError
  | _ =>
      let (i, g') := randbelow (length seq) g in
      match seq !! i with
      | Some a => Ok (a, g')
      | None => Raise IndexError
      end
  end.

(** [seq[i]] for an index [i >= 0]. *)
Definition getitem {A} (seq : list A) (i : nat) : result A :=
  match seq !! i with
  | Some a => Ok a
  | None => Raise IndexError
  end.

(** A local variable read: [None] is the variable not yet assigned. *)
Definition local {A} (v : option A) : result A :=
  match v with
  | Some a => Ok a
  | None => Raise UnboundLocalError
  end.

(** [max(a, b)] and [max([a, b])]: the first of the greatest. *)
Definition max2 (a b : Q) : Q := if Qle_bool b a then a else b.

(** [x[i], x[j] = x[j], x[i]] (both indices in range). *)
Definition swap {A} (x : list A) (i j : nat) : list A :=
  match x !! i, x !! j with
  | Some a, Some b => <[j := a]> (<[i := b]> x)
  | _, _ => x
  end.

(** [random.shuffle(x)]:
    [for i in reversed(range(1, len(x))): j = randbelow(i + 1);
     x[i], x[j] = x[j], x[i]]. *)
Fixpoint shuffle_from {A} (i : nat) (x : list A) (g : Random)
  : list A * Random :=
  match i with
  | O => (x, g)
  | S i' =>
      let (j, g') := randbelow (S i) g in
      shuffle_from i' (swap x i j) g'
  end.

Definition shuffle {A} (x : list A) (g : Random) : list A * Random :=
  shuffle_from (length x - 1) x g.

End Py.

Import Py.

#[global] Instance result_ret : MRet result := @Ok.
#[global] Instance result_bind : MBind result := λ A B k m, Py.bind m k.

(** ** class Card *)

Module Card.

Record t : Set := make { rank : string; suit : string }.

#[global] Instance eq_dec : EqDecision t.
Proof. solve_decision. Defined.

(** [__str__] *)
Definition str (c : t) : string := rank c +:+ suit c.

End Card.

(** ** class Deck *)

Module Deck.

(** The object has the single attribute [cards]. *)
Definition t : Type := list Card.t.

Definition suits : list string := ["♠"; "♡"; "♢"; "♣"].
Definition ranks : list string :=
  ["2"; "3"; "4"; "5"; "6"; "7"; "8"; "9"; "10"; "J"; "Q"; "K"; "A"].

(** [__init__]: [[Card(rank, suit) for suit in suits for rank in ranks]] *)
Definition init : t :=
  flat_map (λ suit, map (λ rank, Card.make rank suit) ranks) suits.

Definition shuffle_deck (d : t) (g : Random) : t * Random := Py.shuffle d g.

(** [deal_card]: [return self.cards.pop(0)] *)
Definition deal_card (d : t) : result (Card.t * t) :=
  match d with
  | [] => Raise IndexError
  | c :: d' => Ok (c, d')
  end.

End Deck.

(** ** class Player *)

Module Player.

Record t : Type := make { busted : bool; hand : list Card.t }.

Definition init : t := {| busted := false; hand := [] |}.

(** [hit]: [self.hand.append(deck.deal_card())] *)
Definition hit (self : t) (deck : Deck.t) : result (t * Deck.t) :=
  '(c, deck') ← Deck.deal_card deck;
  Ok ({| busted := busted self; hand := hand self ++ [c] |}, deck').

(** The [for] loop of [get_hand_sum], from the accumulators
    [hand_sum] and [aces]. *)
Fixpoint sum_cards (cards : list Card.t) (hand_sum : Z) (aces : nat)
  : result (Z * nat) :=
  match cards with
  | [] => Ok (hand_sum, aces)
  | c :: cards' =>
      if isalpha (Card.rank c) && negb (String.eqb (Card.rank c) "A")
      then sum_cards cards' (hand_sum + 10) aces
      else if String.eqb (Card.rank c) "A"
      then sum_cards cards' (hand_sum + 11) (S aces)
      else
        v ← int (Card.rank c);
        sum_cards cards' (hand_sum + v) aces
  end.

(** [while hand_sum > 21 and aces: hand_sum -= 10; aces -= 1] *)
Fixpoint adjust_aces (aces : nat) (hand_sum : Z) : Z :=
  match aces with
  | O => hand_sum
  | S aces' =>
      if 21 <? hand_sum then adjust_aces aces' (hand_sum - 10) else hand_sum
  end.

Definition hand_sum_of (cards : list Card.t) : result Z :=
  '(hand_sum, aces) ← sum_cards cards 0 0%nat;
  Ok (adjust_aces aces hand_sum).

Definition get_hand_sum (self : t) : result Z := hand_sum_of (hand self).

(** [is_busted]: [if self.get_hand_sum() > 21: self.busted = True].
    The method returns [None]; its effect is on the attribute. *)
Definition is_busted (self : t) : result t :=
  total ← get_hand_sum self;
  Ok (if 21 <? total
      then {| busted := true; hand := hand self |}
      else self).

End Player.

(** ** class Dealer(Player) *)

Module Dealer.

(** The subclass adds no attribute. *)
Definition t : Type := Player.t.

(** [should_hit]: [return self.get_hand_sum() <= 17] *)
Definition should_hit (self : t) : result bool :=
  total ← Player.get_hand_sum self;
  Ok (total <=? 17).

End Dealer.

(** ** class AI_Player(Player) *)

Module AI_Player.

(** A state is the tuple [(player_sum, rank_dealer_card)]; the variables
    that hold one also hold [None], the mark of a finished hand. *)
Abbreviation state := (option (Z * Z)).

(** An action is the string ['hit'] or ['stand']. *)
Abbreviation action := string.

(** A table entry is the list [[q_hit, q_stand]]: every entry is created
    as [[0, 0]] and only its indices 0 and 1 are read or written. *)
Abbreviation entry := (Q * Q)%type.

Definition at_index (e : entry) (i : nat) : Q :=
  match i with O => fst e | _ => snd e end.

Definition set_index (i : nat) (v : Q) (e : entry) : entry :=
  match i with O => (v, snd e) | _ => (fst e, v) end.

(** The inherited attributes are those of [base]. *)
Record t : Type := make {
  base : Player.t;
  q_table : gmap state entry;
  alpha : Q;
  gamma : Q;
  epsilon : Q
}.

Definition init (learning_rate discount_factor exploration_rate : Q) : t :=
  {| base := Player.init;
     q_table := ∅;
     alpha := learning_rate;
     gamma := discount_factor;
     epsilon := exploration_rate |}.

(** [AI_Player()] with the default arguments. *)
Definition create : t := init 0.3 0.95 1.0.

Definition with_base (self : t) (p : Player.t) : t :=
  {| base := p; q_table := q_table self; alpha := alpha self;
     gamma := gamma self; epsilon := epsilon self |}.

(** The methods inherited from [Player]. *)
Definition hit (self : t) (deck : Deck.t) : result (t * Deck.t) :=
  '(p, deck') ← Player.hit (base self) deck;
  Ok (with_base self p, deck').

Definition get_hand_sum (self : t) : result Z :=
  Player.get_hand_sum (base self).

Definition is_busted (self : t) : result t :=
  p ← Player.is_busted (base self);
  Ok (with_base self p).

Definition get_state (player_sum : Z) (dealer_card : Card.t) : result state :=
  rank_dealer_card ←
    (if isalpha (Card.rank dealer_card)
        && negb (String.eqb (Card.rank dealer_card) "A")
     then Ok 10
     else if String.eqb (Card.rank dealer_card) "A"
     then Ok 11
     else int (Card.rank dealer_card));
  Ok (Some (player_sum, rank_dealer_card)).

(** [self.q_table.get(state, [0, 0])] *)
Definition q_get (self : t) (st : state) : entry :=
  default (0%Q, 0%Q) (q_table self !! st).

Definition choose_action (self : t) (st : state) (g : Random)
  : result (action * Random) :=
  let (r, g1) := random g in
  if negb (Qle_bool (epsilon self) r)           (* random.random() < epsilon *)
  then choice ["hit"; "stand"] g1
  else if Qle_bool (at_index (q_get self st) 1) (at_index (q_get self st) 0)
  then Ok ("hit", g1)
  else Ok ("stand", g1).

Definition action_index (a : action) : nat :=
  if String.eqb a "hit" then 0%nat else 1%nat.

(** [max(self.q_table.get(next_state, [0, 0])) if next_state else 0]:
    a tuple of two is true, [None] is false. *)
Definition next_max (self : t) (next_state : state) : Q :=
  match next_state with
  | Some _ => max2 (fst (q_get self next_state)) (snd (q_get self next_state))
  | None => 0%Q
  end.

Definition update_q_value (self : t) (st : state) (a : action)
    (reward : Q) (next_state : state) : t :=
  let old_q := at_index (q_get self st) (action_index a) in
  let new_value :=
    (old_q + alpha self * (reward + gamma self * next_max self next_state - old_q))%Q in
  let table :=
    match q_table self !! st with
    | None => <[st := (0%Q, 0%Q)]> (q_table self)
    | Some _ => q_table self
    end in
  {| base := base self;
     q_table := alter (set_index (action_index a) new_value) st table;
     alpha := alpha self;
     gamma := gamma self;
     epsilon := epsilon self |}.

Definition decay_exploration (self : t) (decay_rate : Q) : t :=
  {| base := base self; q_table := q_table self; alpha := alpha self;
     gamma := gamma self;
     epsilon := max2 0.1 (epsilon self * decay_rate) |}.

(** *** train_module *)

(** One call of [update_q_value] made by the training loop: the trace of
    these calls is kept beside the program state. *)
Record update : Type := Update {
  upd_state : state;
  upd_action : action;
  upd_reward : Q;
  upd_next : state
}.

(** What the body of the [for] loop leaves behind. *)
Record round : Type := Round {
  r_self : t;
  r_dealer : Dealer.t;
  r_deck : Deck.t;
  r_state : state;
  r_choice : option action;
  r_random : Random;
  r_trace : list update
}.

(** The [while not self.busted] loop.  [self.hit(deck)] is unfolded to
    the [pop(0)] it performs, which makes the deck the decreasing
    argument; [agent_turn_hit] below gives the loop in terms of [hit]. *)
Fixpoint agent_turn (deck : Deck.t) (self : t) (dealer : Dealer.t)
    (st : state) (choice : option action) (g : Random)
    (trace : list update) {struct deck} : result round :=
  if Player.busted (base self)
  then Ok (Round self dealer deck st choice g trace)
  else
    '(c, g1) ← choose_action self st g;
    if String.eqb c "stand"
    then Ok (Round self dealer deck st (Some c) g1 trace)
    else
      match deck with
      | [] => Raise IndexError
      | card :: deck' =>
          let self1 :=
            with_base self
              {| Player.busted := Player.busted (base self);
                 Player.hand := Player.hand (base self) ++ [card] |} in
          self2 ← is_busted self1;
          '(reward, next_state) ←
            (if Player.busted (base self2)
             then Ok ((-1)%Q, None)
             else
               total ← get_hand_sum self2;
               upcard ← getitem (Player.hand dealer) 0;
               next_state ← get_state total upcard;
               Ok (1%Q, next_state));
          agent_turn deck' (update_q_value self2 st c reward next_state)
            dealer next_state (Some c) g1
            (trace ++ [Update st c reward next_state])
      end.

(** The [if self.busted: pass / elif ... / elif ... / else] statement. *)
Definition settle (r : round) : result round :=
  if Player.busted (base (r_self r))
  then Ok r
  else
    dealer_sum ← Player.get_hand_sum (r_dealer r);
    self_sum ← get_hand_sum (r_self r);
    let reward :=
      if self_sum <? dealer_sum then (-0.5)%Q
      else if dealer_sum =? self_sum then 0.5%Q
      else 1%Q in
    c ← local (r_choice r);
    Ok (Round (update_q_value (r_self r) (r_state r) c reward None)
              (r_dealer r) (r_deck r) (r_state r) (r_choice r) (r_random r)
              (r_trace r ++ [Update (r_state r) c reward None])).

(** The body of the [for] loop from the first [self.hit(deck)] on, for
    the deck that [shuffle_deck] has left. *)
Definition play_round (self : t) (choice : option action) (deck : Deck.t)
    (g : Random) : result round :=
  let dealer : Dealer.t := Player.init in
  '(self, deck) ← hit self deck;
  '(self, deck) ← hit self deck;
  '(dealer, deck) ← Player.hit dealer deck;
  '(dealer, deck) ← Player.hit dealer deck;
  total ← get_hand_sum self;
  upcard ← getitem (Player.hand dealer) 0;
  st ← get_state total upcard;
  r ← agent_turn deck self dealer st choice g [];
  r ← settle r;
  Ok (Round (decay_exploration (r_self r) 0.9999)
            (r_dealer r) (r_deck r) (r_state r) (r_choice r) (r_random r)
            (r_trace r)).

(** One iteration of [for _ in range(n_games)]. *)
Definition episode (self : t) (choice : option action) (g : Random)
  : result round :=
  let self := with_base self {| Player.busted := false; Player.hand := [] |} in
  let (deck, g1) := Deck.shuffle_deck Deck.init g in
  play_round self choice deck g1.

Fixpoint train_loop (n_games : nat) (self : t) (choice : option action)
    (g : Random) (trace : list update)
  : result (t * Random * list update) :=
  match n_games with
  | O => Ok (self, g, trace)
  | S n =>
      r ← episode self choice g;
      train_loop n (r_self r) (r_choice r) (r_random r) (trace ++ r_trace r)
  end.

Definition train_module (self : t) (n_games : nat) (g : Random)
  : result (t * Random * list update) :=
  train_loop n_games self None g [].

End AI_Player.

(** ** play_game: the dealer's turn *)

Module Game.

(** [while not dealer.busted and dealer.should_hit():
       dealer.hit(deck); dealer.is_busted()],
    with [dealer.hit(deck)] unfolded as in [AI_Player.agent_turn]. *)
Fixpoint dealer_turn (deck : Deck.t) (dealer : Dealer.t) {struct deck}
  : result (Dealer.t * Deck.t) :=
  if Player.busted dealer
  then Ok (dealer, deck)
  else
    again ← Dealer.should_hit dealer;
    if again : bool
    then
      match deck with
      | [] => Raise IndexError
      | card :: deck' =>
          dealer2 ← Player.is_busted
            {| Player.busted := Player.busted dealer;
               Player.hand := Player.hand dealer ++ [card] |};
          dealer_turn deck' dealer2
      end
    else Ok (dealer, deck).

End Game.

(** ** Standard input and output *)

Module Console.

(** Standard output is the list of the texts written, one per call of
    [print] or prompt of [input]; standard input is the list of the
    lines still to be read, without their ends of line. *)
Record t : Type := make { stdin : list string; stdout : list string }.

(** What [play_game] can raise: an exception of the game, or the
    [EOFError] of [input] at the end of the input. *)
Inductive raised : Set :=
| Exception (e : exception)
| EOFError.

Inductive outcome (A : Type) : Type :=
| Done (a : A)
| Fail (e : raised).
Arguments Done {A} a.
Arguments Fail {A} e.

Definition bind {A B} (m : outcome A) (k : A → outcome B) : outcome B :=
  match m with
  | Done a => k a
  | Fail e => Fail e
  end.

Definition lift {A} (m : result A) : outcome A :=
  match m with
  | Ok a => Done a
  | Raise e => Fail (Exception e)
  end.

Definition nl : string := String "010"%char EmptyString.

(** [print(text, end=e)] and [print(text)], whose end is the new line. *)
Definition print_end (text e : string) (out : list string) : list string :=
  out ++ [text +:+ e].

Definition print (text : string) (out : list string) : list string :=
  print_end text nl out.

(** [input(prompt)] *)
Definition input (prompt : string) (c : t) : outcome (string * t) :=
  match stdin c with
  | [] => Fail EOFError
  | line :: lines =>
      Done (line, {| stdin := lines; stdout := stdout c ++ [prompt] |})
  end.

(** The white space of ASCII, as [str.isspace] has it. *)
Definition is_space (c : ascii) : bool :=
  let n := nat_of_ascii c in
  ((9 <=? n)%nat && (n <=? 13)%nat) || ((28 <=? n)%nat && (n <=? 32)%nat).

Fixpoint lstrip (s : string) : string :=
  match s with
  | EmptyString => EmptyString
  | String c s' => if is_space c then lstrip s' else s
  end.

Fixpoint rstrip (s : string) : string :=
  match s with
  | EmptyString => EmptyString
  | String c s' =>
      match rstrip s' with
      | EmptyString => if is_space c then EmptyString else String c EmptyString
      | r => String c r
      end
  end.

(** [str.strip()], for the white space of ASCII. *)
Definition strip (s : string) : string := rstrip (lstrip s).

Definition lower_char (c : ascii) : ascii :=
  let n := nat_of_ascii c in
  if (65 <=? n)%nat && (n <=? 90)%nat then ascii_of_nat (n + 32) else c.

(** [str.lower()], for the letters of ASCII. *)
Fixpoint lower (s : string) : string :=
  match s with
  | EmptyString => EmptyString
  | String c s' => String (lower_char c) (lower s')
  end.

(** [Player.show_hand]: [print(self.hand[i], end=" ")] for every card. *)
Definition show_hand (p : Player.t) (out : list string) : list string :=
  fold_left (λ o c, print_end (Card.str c) " " o) (Player.hand p) out.

(** [Dealer.show_first_card]: [print(self.hand[0])] *)
Definition show_first_card (dealer : Dealer.t) (out : list string)
  : result (list string) :=
  c ← getitem (Player.hand dealer) 0;
  Ok (print (Card.str c) out).

End Console.

#[global] Instance outcome_ret : MRet Console.outcome := @Console.Done.
#[global] Instance outcome_bind : MBind Console.outcome :=
  λ A B k m, Console.bind m k.

(** ** get_user_input and play_game *)

Module Play.

Import Console.

Definition normalise (line : string) : string := lower (strip line).

Definition is_answer (query : string) : bool :=
  String.eqb query "yes" || String.eqb query "no".

(** The [while query not in ['yes', 'no']] loop of [get_user_input];
    [input] is unfolded to the read it performs, which makes the input
    the decreasing argument. *)
Fixpoint ask_again (lines : list string) (out : list string) (query : string)
  : outcome (string * Console.t) :=
  if is_answer query
  then Done (query, {| stdin := lines; stdout := out |})
  else
    match lines with
    | [] => Fail EOFError
    | line :: lines' =>
        ask_again lines'
          (out ++ ["Invalid input. Please enter 'yes' or 'no': "])
          (normalise line)
    end.


(** What one pass of the [while query == 'yes'] loop of [play_game]
    leaves behind, before it asks. *)
Record hand : Type := Hand {
  h_bot : AI_Player.t;
  h_dealer : Dealer.t;
  h_deck : Deck.t;
  h_random : Random;
  h_out : list string
}.

(** [while not p1.busted and p1.choose_action(state) == 'hit'], with
    [p1.hit(deck)] unfolded as in [AI_Player.agent_turn]. *)
Fixpoint bot_turn (deck : Deck.t) (p1 : AI_Player.t) (dealer : Dealer.t)
    (st : AI_Player.state) (g : Random) (out : list string) {struct deck}
  : result hand :=
  if Player.busted (AI_Player.base p1)
  then Ok (Hand p1 dealer deck g out)
  else
    '(c, g1) ← AI_Player.choose_action p1 st g;
    if String.eqb c "hit"
    then
      match deck with
      | [] => Raise IndexError
      | card :: deck' =>
          p2 ← AI_Player.is_busted
                 (AI_Player.with_base p1
                    {| Player.busted := Player.busted (AI_Player.base p1);
                       Player.hand := Player.hand (AI_Player.base p1) ++ [card] |});
          let out1 := print_end "AI player's cards are now: " " " out in
          let out2 := show_hand (AI_Player.base p2) out1 in
          let out3 := print "" out2 in
          let out4 :=
            if Player.busted (AI_Player.base p2)
            then print "Bot busted out." out3
            else out3 in
          total ← AI_Player.get_hand_sum p2;
          upcard ← getitem (Player.hand dealer) 0;
          st' ← AI_Player.get_state total upcard;
          bot_turn deck' p2 dealer st' g1 out4
      end
    else Ok (Hand p1 dealer deck g1 out).

(** The [if not p1.busted:] statement: the dealer's turn and the verdict. *)
Definition verdict (h : hand) : result hand :=
  if Player.busted (AI_Player.base (h_bot h))
  then Ok h
  else
    '(dealer, deck) ← Game.dealer_turn (h_deck h) (h_dealer h);
    let shown :=
      show_hand dealer (print_end "Dealer's hand: " "" (h_out h)) in
    message ←
      (if Player.busted dealer
       then Ok (nl +:+ "Dealer busted out. Bot wins!")
       else
         dealer_sum ← Player.get_hand_sum dealer;
         bot_sum ← AI_Player.get_hand_sum (h_bot h);
         Ok (if bot_sum <? dealer_sum then nl +:+ "Dealer wins!"
             else if dealer_sum =? bot_sum then nl +:+ "Tie!"
             else nl +:+ "Bot wins!"));
    Ok (Hand (h_bot h) dealer deck (h_random h) (print message shown)).

(** The body of the [while] loop up to the verdict, for the deck that
    [shuffle_deck] has left. *)
Definition play_hand (p1 : AI_Player.t) (deck : Deck.t) (g : Random)
    (out : list string) : result hand :=
  let dealer : Dealer.t := Player.init in
  let p1 :=
    {| AI_Player.base := {| Player.busted := false; Player.hand := [] |};
       AI_Player.q_table := AI_Player.q_table p1;
       AI_Player.alpha := AI_Player.alpha p1;
       AI_Player.gamma := AI_Player.gamma p1;
       AI_Player.epsilon := 0%Q |} in
  '(p1, deck) ← AI_Player.hit p1 deck;
  '(p1, deck) ← AI_Player.hit p1 deck;
  '(dealer, deck) ← Player.hit dealer deck;
  '(dealer, deck) ← Player.hit dealer deck;
  let out := print_end "AI player's cards are: " " " out in
  let out := show_hand (AI_Player.base p1) out in
  let out := print "" out in
  let out := print_end "The dealer's first card is: " " " out in
  out ← show_first_card dealer out;
  total ← AI_Player.get_hand_sum p1;
  upcard ← getitem (Player.hand dealer) 0;
  st ← AI_Player.get_state total upcard;
  h ← bot_turn deck p1 dealer st g out;
  verdict h.

(** One pass of the loop of [play_game], up to the question. *)
Definition play_once (p1 : AI_Player.t) (g : Random) (out : list string)
  : result hand :=
  let (deck, g1) := Deck.shuffle_deck Deck.init g in
  play_hand p1 deck g1 out.



End Play.

(** ** Notions used by the statements *)

(** What one card adds to the accumulators [hand_sum] and [aces] of
    [get_hand_sum]: the three branches of the loop body. *)
Definition points (c : Card.t) : result (Z * nat) :=
  if isalpha (Card.rank c) && negb (String.eqb (Card.rank c) "A")
  then Ok (10, 0%nat)
  else if String.eqb (Card.rank c) "A"
  then Ok (11, 1%nat)
  else v ← int (Card.rank c); Ok (v, 0%nat).

(** [n] successive calls of [deal_card]: the cards returned, in order, and
    the deck that is left. *)
Fixpoint deal_cards (n : nat) (d : Deck.t) : result (list Card.t * Deck.t) :=
  match n with
  | O => Ok ([], d)
  | S n' =>
      '(c, d1) ← Deck.deal_card d;
      '(cs, d2) ← deal_cards n' d1;
      Ok (c :: cs, d2)
  end.

(** The values of [epsilon] after each of a series of calls of
    [decay_exploration], one call per decay rate. *)
Fixpoint epsilons (self : AI_Player.t) (decay_rates : list Q) : list Q :=
  match decay_rates with
  | [] => []
  | d :: ds =>
      let self' := AI_Player.decay_exploration self d in
      AI_Player.epsilon self' :: epsilons self' ds
  end.

(** A decay rate of the interval (0, 1]. *)
Definition valid_rate (d : Q) : Prop := (0 < d)%Q ∧ (d <= 1)%Q.

(** A list of reals in which no element is greater than the one before. *)
Definition non_increasing (l : list Q) : Prop :=
  ∀ i x y, l !! i = Some x → l !! S i = Some y → (y <= x)%Q.

(** The stored flag says what the hand says. *)
Definition bust_flag_in_sync (p : Player.t) : Prop :=
  ∀ total, Player.get_hand_sum p = Ok total →
           (Player.busted p = true ↔ 21 < total).

(** A card whose rank is one of the thirteen of the deck. *)
Definition valid_card (c : Card.t) : Prop := Card.rank c ∈ Deck.ranks.

(** The update that follows a hit that did not bust: reward 1 and a next
    state that is a state. *)
Definition hit_update (u : AI_Player.update) : Prop :=
  AI_Player.upd_action u = "hit" ∧ AI_Player.upd_reward u = 1%Q ∧
  AI_Player.upd_next u ≠ None.

(** The calls of a trace, made one after the other. *)
Definition replay (self : AI_Player.t) (trace : list AI_Player.update)
  : AI_Player.t :=
  fold_left
    (λ s u, AI_Player.update_q_value s (AI_Player.upd_state u)
              (AI_Player.upd_action u) (AI_Player.upd_reward u)
              (AI_Player.upd_next u))
    trace self.

(** Two agents that differ at most in their hand and bust flag. *)
Definition same_learning (s1 s2 : AI_Player.t) : Prop :=
  AI_Player.q_table s1 = AI_Player.q_table s2 ∧
  AI_Player.alpha s1 = AI_Player.alpha s2 ∧
  AI_Player.gamma s1 = AI_Player.gamma s2 ∧
  AI_Player.epsilon s1 = AI_Player.epsilon s2.

(** What the [while] loop of [train_module] establishes, from an agent
    [self] that has not busted, a deck and a trace: the dealer is as
    before, no card is lost, there is one update per card drawn, all of
    them for hits that did not bust except the last one when the agent
    busts. *)
Definition turn_post (upcard : Card.t) (self : AI_Player.t) (deck : Deck.t)
    (dealer : Dealer.t) (trace : list AI_Player.update)
    (r : AI_Player.round) : Prop :=
  let self' := AI_Player.r_self r in
  AI_Player.r_dealer r = dealer ∧
  Player.hand (AI_Player.base self') ++ AI_Player.r_deck r
  = Player.hand (AI_Player.base self) ++ deck ∧
  Forall valid_card (Player.hand (AI_Player.base self')) ∧
  ∃ steps total,
    AI_Player.r_trace r = trace ++ steps ∧
    same_learning self' (replay self steps) ∧
    length (Player.hand (AI_Player.base self'))
    = (length (Player.hand (AI_Player.base self)) + length steps)%nat ∧
    AI_Player.get_hand_sum self' = Ok total ∧
    if Player.busted (AI_Player.base self')
    then 21 < total ∧ AI_Player.r_state r = None ∧
         AI_Player.r_choice r = Some "hit" ∧
         ∃ hits st, steps = hits ++ [AI_Player.Update st "hit" (-1)%Q None] ∧
                    Forall hit_update hits
    else total ≤ 21 ∧
         AI_Player.get_state total upcard = Ok (AI_Player.r_state r) ∧
         AI_Player.r_choice r = Some "stand" ∧
         Forall hit_update steps.

(** The reward of the settlement, from the two totals. *)
Definition settlement_reward (total dealer_total : Z) (reward : Q) : Prop :=
  (total < dealer_total → reward = (-0.5)%Q) ∧
  (total = dealer_total → reward = 0.5%Q) ∧
  (dealer_total < total → reward = 1%Q).

(** What one iteration of the [for] loop of [train_module] establishes,
    from the agent [self], the generator [g] and the deck
    [c1, c2, c3, c4, rest] that the shuffle has left. *)
Definition round_post (self : AI_Player.t) (g : Random)
    (c1 c2 c3 c4 : Card.t) (rest : list Card.t) (r : AI_Player.round) : Prop :=
  let self' := AI_Player.r_self r in
  AI_Player.r_dealer r = {| Player.busted := false; Player.hand := [c3; c4] |} ∧
  Player.hand (AI_Player.base self') ++ AI_Player.r_deck r = c1 :: c2 :: rest ∧
  AI_Player.q_table self' = AI_Player.q_table (replay self (AI_Player.r_trace r)) ∧
  AI_Player.alpha self' = AI_Player.alpha self ∧
  AI_Player.gamma self' = AI_Player.gamma self ∧
  AI_Player.epsilon self' = max2 0.1 (AI_Player.epsilon self * 0.9999) ∧
  ∃ total dealer_total total0 st0 hits last,
    AI_Player.get_hand_sum self' = Ok total ∧
    Player.get_hand_sum (AI_Player.r_dealer r) = Ok dealer_total ∧
    Player.hand_sum_of [c1; c2] = Ok total0 ∧
    AI_Player.get_state total0 c3 = Ok st0 ∧
    AI_Player.r_trace r = hits ++ [last] ∧
    Forall hit_update hits ∧
    AI_Player.upd_next last = None ∧
    length (Player.hand (AI_Player.base self'))
    = (2 + length hits
       + if Player.busted (AI_Player.base self') then 1 else 0)%nat ∧
    (Player.busted (AI_Player.base self') = true ↔ 21 < total) ∧
    (Player.busted (AI_Player.base self') = true →
       AI_Player.upd_action last = "hit" ∧
       AI_Player.upd_reward last = (-1)%Q) ∧
    (Player.busted (AI_Player.base self') = false →
       AI_Player.upd_action last = "stand" ∧
       AI_Player.get_state total c3 = Ok (AI_Player.upd_state last) ∧
       settlement_reward total dealer_total (AI_Player.upd_reward last)) ∧
    (∀ g2, AI_Player.choose_action self st0 g = Ok ("stand", g2) →
           Player.busted (AI_Player.base self') = false ∧ hits = [] ∧
           AI_Player.upd_state last = st0 ∧ total = total0).

(** A card of the deck, by rank (the suit plays no part in any rule). *)
Definition spade (rank : string) : Card.t := Card.make rank "♠".
Definition heart (rank : string) : Card.t := Card.make rank "♡".

(** The generator whose draws are all 0 makes [shuffle] rotate the deck by
    one card and [choose_action] explore and pick ['hit']. *)
Definition all_zero : Random := λ _, 0%N.

(** 51 draws of 0 for the shuffle, then draws of 1: [choose_action]
    explores (1/2^53 is below any positive epsilon) and picks ['stand']. *)
Definition shuffle_then_stand : Random :=
  λ n, if (n <? 51)%nat then 0%N else 1%N.



(** Two agents with the same table and the same [alpha] and [gamma]. *)
Definition same_table (s1 s2 : AI_Player.t) : Prop :=
  AI_Player.q_table s1 = AI_Player.q_table s2 ∧
  AI_Player.alpha s1 = AI_Player.alpha s2 ∧
  AI_Player.gamma s1 = AI_Player.gamma s2.

(** The states of a hand that has not busted against a card of the deck:
    a total from 4 to 21 and an upcard value from 2 to 11. *)
Definition good_state (st : AI_Player.state) : Prop :=
  ∃ p d, st = Some (p, d) ∧ 4 ≤ p ≤ 21 ∧ 2 ≤ d ≤ 11.

Definition all_good_states : gset AI_Player.state :=
  list_to_set
    (flat_map (λ p, map (λ d, Some (p, d)) (seqZ 2 10)) (seqZ 4 18)).

(** An update made with the terminal mark. *)
Definition terminal (u : AI_Player.update) : Prop := AI_Player.upd_next u = None.

#[global] Instance terminal_dec (u : AI_Player.update) : Decision (terminal u).
Proof. unfold terminal. apply _. Defined.

Example hand_A_A_9 :
  Player.hand_sum_of [Card.make "A" "♠"; Card.make "A" "♡"; Card.make "9" "♢"]
  = Ok 21.
Proof. reflexivity. Qed.

Example hand_K_Q_2 :
  Player.hand_sum_of [Card.make "K" "♠"; Card.make "Q" "♡"; Card.make "2" "♢"]
  = Ok 22.
Proof. reflexivity. Qed.

Example hand_10_7 :
  Player.hand_sum_of [Card.make "10" "♠"; Card.make "7" "♡"] = Ok 17.
Proof. reflexivity. Qed.

(** ** The exception monad *)

Lemma bind_Ok {A B} (a : A) (k : A → result B) : Ok a ≫= k = k a.
Proof. reflexivity. Qed.

Lemma bind_Raise {A B} (e : exception) (k : A → result B) :
  Raise e ≫= k = Raise e.
Proof. reflexivity. Qed.

(** ** The dealer's policy *)

Lemma should_hit_spec (dealer : Dealer.t) (total : Z) :
  Player.get_hand_sum dealer = Ok total →
  Dealer.should_hit dealer = Ok (bool_decide (total ≤ 17)).
Proof.
  intros H. unfold Dealer.should_hit. rewrite H. simpl.
  f_equal. case_bool_decide; lia.
Qed.

(** C1. The dealer is asked to stand on every total of 17 or more; on the
    hand 10, 7, whose total is 17, [should_hit] answers that the dealer
    draws: the threshold of the code is 17, not 16. *)
Theorem should_hit_on_17 :
  let dealer := {| Player.busted := false;
                   Player.hand := [spade "10"; heart "7"] |} in
  Player.get_hand_sum dealer = Ok 17 ∧ Dealer.should_hit dealer = Ok true.
Proof. split; reflexivity. Qed.

(** ** Reals: the comparisons the code makes *)

Section Max2.
Local Open Scope Q_scope.

Lemma max2_left (a b : Q) : b <= a → max2 a b = a.
Proof.
  intros H. unfold max2.
  destruct (Qle_bool b a) eqn:E; [reflexivity|].
  apply Qle_bool_iff in H. congruence.
Qed.

Lemma max2_right (a b : Q) : a < b → max2 a b = b.
Proof.
  intros H. unfold max2.
  destruct (Qle_bool b a) eqn:E; [|reflexivity].
  apply Qle_bool_iff in E. exfalso. eapply Qlt_not_le; eassumption.
Qed.

Lemma max2_cases (a b : Q) :
  (b <= a ∧ max2 a b = a) ∨ (a < b ∧ max2 a b = b).
Proof.
  destruct (Qlt_le_dec a b) as [H|H].
  - right. split; [assumption | by apply max2_right].
  - left. split; [assumption | by apply max2_left].
Qed.

Lemma max2_ge_l (a b : Q) : a <= max2 a b.
Proof.
  destruct (max2_cases a b) as [[_ ->]|[H ->]];
    [apply Qle_refl | by apply Qlt_le_weak].
Qed.

Lemma max2_ge_r (a b : Q) : b <= max2 a b.
Proof. destruct (max2_cases a b) as [[H ->]|[_ ->]]; [done | apply Qle_refl]. Qed.

Lemma random_unit_interval (g : Random) : 0 <= (random g).1 ∧ (random g).1 < 1.
Proof.
  unfold random, next. cbn [fst].
  set (raw := (g 0%nat mod 2 ^ 53)%N).
  assert (raw < 2 ^ 53)%N as Hlt by (apply N.mod_lt; discriminate).
  unfold Qle, Qlt. cbn [Qnum Qden]. split; [lia|].
  change (Z.pos (2 ^ 53)) with (Z.of_N (2 ^ 53)). lia.
Qed.

End Max2.

(** ** The Q-learning core *)

Section QLearning.
Import AI_Player.
Local Open Scope Q_scope.

Lemma q_get_empty (self : t) (st : state) :
  q_table self = ∅ → q_get self st = (0, 0).
Proof. intros H. unfold q_get. by rewrite H, lookup_empty. Qed.

Lemma action_index_other (a : action) : a ≠ "hit" → action_index a = 1%nat.
Proof.
  intros H. unfold action_index.
  destruct (String.eqb a "hit") eqn:E; [|reflexivity].
  by apply String.eqb_eq in E.
Qed.

Lemma update_q_value_lookup (self : t) (st : state) (a : action)
    (reward : Q) (next_state : state) :
  q_table (update_q_value self st a reward next_state) !! st
  = Some (set_index (action_index a)
            (at_index (q_get self st) (action_index a)
             + alpha self * (reward + gamma self * next_max self next_state
                             - at_index (q_get self st) (action_index a)))
            (q_get self st)).
Proof.
  unfold update_q_value, q_get. cbn [q_table].
  rewrite lookup_alter_eq.
  destruct (q_table self !! st) as [e|] eqn:E.
  - by rewrite E.
  - by rewrite lookup_insert_eq.
Qed.

Lemma update_q_value_frame (self : t) (st st' : state) (a : action)
    (reward : Q) (next_state : state) :
  st' ≠ st →
  q_table (update_q_value self st a reward next_state) !! st'
  = q_table self !! st'.
Proof.
  intros H. unfold update_q_value. cbn [q_table].
  rewrite lookup_alter_ne by done.
  destruct (q_table self !! st); [done|].
  by rewrite lookup_insert_ne.
Qed.

(** C4. [update_q_value] moves Q[state][action] by [alpha] times the
    temporal-difference error, where [next_max] is 0 at the terminal
    mark and the greater entry of Q[next_state] otherwise (an absent
    entry reads [0, 0]); the entry of [state] exists afterwards, its
    other action and every other state keep their values; and on an
    empty table the update of (12, 6), hit, reward 1, next state (18, 6)
    leaves [alpha] at Q[(12, 6)][hit]. *)
Theorem update_q_value_rule (self : t) (st : state) (a : action)
    (reward : Q) (next_state : state) :
  let self' := update_q_value self st a reward next_state in
  let i := action_index a in
  let old_q := at_index (q_get self st) i in
  let nm := next_max self next_state in
  (* the action index *)
  (a = "hit" → i = 0%nat) ∧ (a ≠ "hit" → i = 1%nat) ∧
  (* next_max *)
  (next_state = None → nm = 0) ∧
  (next_state ≠ None →
     (q_get self next_state).1 <= nm ∧ (q_get self next_state).2 <= nm ∧
     (nm = (q_get self next_state).1 ∨ nm = (q_get self next_state).2)) ∧
  (q_table self !! next_state = None → nm = 0) ∧
  (* the update *)
  at_index (q_get self' st) i = old_q + alpha self * (reward + gamma self * nm - old_q) ∧
  at_index (q_get self' st) (1 - i) = at_index (q_get self st) (1 - i) ∧
  is_Some (q_table self' !! st) ∧
  (q_table self !! st = None → q_get self st = (0, 0)) ∧
  (∀ st', st' ≠ st → q_table self' !! st' = q_table self !! st') ∧
  (base self' = base self ∧ alpha self' = alpha self ∧
   gamma self' = gamma self ∧ epsilon self' = epsilon self) ∧
  (* the worked example *)
  (q_table self = ∅ →
     at_index (q_get (update_q_value self (Some (12, 6)%Z) "hit" 1
                        (Some (18, 6)%Z))
                 (Some (12, 6)%Z)) 0
     == alpha self).
Proof.
  cbv zeta.
  split; [by intros ->|].
  split; [apply action_index_other|].
  split; [by intros ->|].
  split.
  { intros H. destruct next_state as [s|]; [|done]. cbn [next_max].
    split; [apply max2_ge_l|]. split; [apply max2_ge_r|].
    destruct (max2_cases (q_get self (Some s)).1 (q_get self (Some s)).2)
      as [[_ ->]|[_ ->]]; auto. }
  split.
  { intros H. destruct next_state as [s|]; [|done]. cbn [next_max].
    unfold q_get. by rewrite H. }
  split.
  { unfold q_get at 1. rewrite update_q_value_lookup. cbn [default].
    destruct (action_index a); reflexivity. }
  split.
  { unfold q_get at 1. rewrite update_q_value_lookup. cbn [default].
    destruct (action_index a) as [|[|n]]; reflexivity. }
  split; [rewrite update_q_value_lookup; eauto|].
  split; [intros H; unfold q_get; by rewrite H|].
  split; [intros st' H; by apply update_q_value_frame|].
  split; [done|].
  intros H. unfold q_get at 1. rewrite update_q_value_lookup.
  unfold next_max.
  rewrite (q_get_empty self (Some (12, 6)%Z) H),
    (q_get_empty self (Some (18, 6)%Z) H).
  change (max2 (0, 0).1 (0, 0).2) with 0.
  change (action_index "hit") with 0%nat.
  cbn [default id at_index set_index fst snd]. ring.
Qed.

(** C9. When the draw of [random.random()] is not below [epsilon],
    [choose_action] returns hit if Q[state][hit] >= Q[state][stand] and
    stand otherwise (an absent entry reads [0, 0]); with [epsilon] equal
    to 0 every draw is of that kind, and on an empty table the answer is
    then hit, whatever the state. *)
Theorem choose_action_exploits (self : t) (st : state) (g : Random) :
  let r := (random g).1 in
  let g1 := (random g).2 in
  let q_hit := at_index (q_get self st) 0 in
  let q_stand := at_index (q_get self st) 1 in
  (epsilon self <= r →
     (q_stand <= q_hit → choose_action self st g = Ok ("hit", g1)) ∧
     (q_hit < q_stand → choose_action self st g = Ok ("stand", g1))) ∧
  (epsilon self == 0 → epsilon self <= r) ∧
  (epsilon self == 0 → q_table self = ∅ →
     choose_action self st g = Ok ("hit", g1)).
Proof.
  cbv zeta.
  assert (∀ b : bool,
    epsilon self <= (random g).1 →
    Qle_bool (at_index (q_get self st) 1) (at_index (q_get self st) 0) = b →
    choose_action self st g
    = Ok (if b then "hit" else "stand", (random g).2)) as Hexploit.
  { intros b Hr Hb. unfold choose_action.
    destruct (random g) as [r g1]. cbn [fst snd] in *.
    apply Qle_bool_iff in Hr. rewrite Hr. cbn [negb].
    rewrite Hb. by destruct b. }
  assert (epsilon self == 0 → epsilon self <= (random g).1) as Hzero.
  { intros ->. apply random_unit_interval. }
  split; [|split; [exact Hzero|]].
  - intros Hr. split; intros Hq.
    + apply (Hexploit true Hr). by apply Qle_bool_iff.
    + apply (Hexploit false Hr).
      destruct (Qle_bool _ _) eqn:E; [|done].
      apply Qle_bool_iff in E. exfalso. eapply Qlt_not_le; eassumption.
  - intros He Hq. apply (Hexploit true (Hzero He)).
    by rewrite (q_get_empty self st Hq).
Qed.

End QLearning.

(** ** Exploration decay *)

Section Decay.
Import AI_Player.
Local Open Scope Q_scope.

Lemma decay_exploration_floor (self : t) (d : Q) :
  0.1 <= epsilon (decay_exploration self d).
Proof. apply max2_ge_l. Qed.

Lemma decay_exploration_le (self : t) (d : Q) :
  d <= 1 → 0.1 <= epsilon self →
  epsilon (decay_exploration self d) <= epsilon self.
Proof.
  intros Hd He. cbn [decay_exploration epsilon].
  destruct (max2_cases 0.1 (epsilon self * d)) as [[_ ->]|[_ ->]]; [done|].
  rewrite <- (Qmult_1_r (epsilon self)) at 2.
  rewrite !(Qmult_comm (epsilon self)).
  apply Qmult_le_compat_r; [done|].
  apply Qle_trans with 0.1; [discriminate | done].
Qed.

Lemma epsilons_floor (self : t) (ds : list Q) :
  Forall (λ e, 0.1 <= e) (epsilons self ds).
Proof.
  revert self. induction ds as [|d ds IH]; intros self; cbn [epsilons].
  - constructor.
  - constructor; [apply decay_exploration_floor | apply IH].
Qed.

Lemma epsilons_non_increasing (self : t) (ds : list Q) :
  Forall valid_rate ds → 0.1 <= epsilon self →
  non_increasing (epsilon self :: epsilons self ds).
Proof.
  revert self. induction ds as [|d ds IH]; intros self Hds He i x y Hx Hy.
  - destruct i; discriminate.
  - inversion Hds as [|? ? [_ Hd] Hds']; subst.
    cbn [epsilons] in Hy, Hx. destruct i as [|i].
    + cbn in Hx, Hy. injection Hx as <-. injection Hy as <-.
      by apply decay_exploration_le.
    + eapply (IH (decay_exploration self d) Hds'
                (decay_exploration_floor self d) i); eassumption.
Qed.

(** C5, as the code has it.  For a decay rate in (0, 1] a call of
    [decay_exploration] replaces [epsilon] by the greater of 0.1 and
    [epsilon * decay_rate]; the new value is at least 0.1, and it is at
    most the old one when the old one was at least 0.1.  Over a series
    of calls the values after the calls never fall below 0.1 and never
    increase; the value before the first call belongs to that
    non-increasing sequence when it is at least 0.1. *)
Theorem decay_exploration_sequence (self : t) (d : Q) (ds : list Q) :
  valid_rate d → Forall valid_rate ds →
  let eps := epsilon self in
  let eps' := epsilon (decay_exploration self d) in
  (eps * d <= 0.1 → eps' = 0.1) ∧
  (0.1 < eps * d → eps' = eps * d) ∧
  0.1 <= eps' ∧
  (0.1 <= eps → eps' <= eps) ∧
  Forall (λ e, 0.1 <= e) (epsilons self (d :: ds)) ∧
  non_increasing (epsilons self (d :: ds)) ∧
  (0.1 <= eps → non_increasing (eps :: epsilons self (d :: ds))).
Proof.
  intros [Hd0 Hd1] Hds. cbv zeta.
  split; [apply max2_left|].
  split; [apply max2_right|].
  split; [apply decay_exploration_floor|].
  split; [by apply decay_exploration_le|].
  split; [apply epsilons_floor|].
  split.
  - cbn [epsilons].
    apply (epsilons_non_increasing (decay_exploration self d) ds Hds).
    apply decay_exploration_floor.
  - intros He. apply epsilons_non_increasing; [|done].
    constructor; [by split | done].
Qed.

Lemma decay_exploration_sequence_witness :
  let self := AI_Player.create in
  valid_rate 0.9999 ∧ Forall valid_rate [0.9999; 0.5] ∧
  epsilons self [0.9999; 0.9999; 0.5] = [1.0 * 0.9999; 1.0 * 0.9999 * 0.9999; 1.0 * 0.9999 * 0.9999 * 0.5] ∧
  non_increasing (epsilon self :: epsilons self [0.9999; 0.9999; 0.5]).
Proof.
  assert (valid_rate 0.9999) as H1 by (split; reflexivity || discriminate).
  assert (valid_rate 0.5) as H2 by (split; reflexivity || discriminate).
  assert (Forall valid_rate [0.9999; 0.5]) as Hds
    by (constructor; [exact H1 | constructor; [exact H2 | constructor]]).
  split; [exact H1|]. split; [exact Hds|]. split; [reflexivity|].
  apply (decay_exploration_sequence AI_Player.create 0.9999 [0.9999; 0.5] H1 Hds).
  discriminate.
Defined.

(** C5, as the claim has it, fails for an agent whose [epsilon] is below
    the floor: from [epsilon = 0] (an agent built with
    [exploration_rate=0]) a call with decay rate 1 raises [epsilon] to
    0.1, so the values do not form a non-increasing sequence and the
    first of them is below 0.1. *)
Lemma decay_exploration_can_increase :
  let self := AI_Player.init 0.3 0.95 0 in
  valid_rate 1 ∧
  epsilon self < 0.1 ∧
  epsilon self < epsilon (decay_exploration self 1) ∧
  ¬ non_increasing (epsilon self :: epsilons self [1]).
Proof.
  cbv zeta. split; [split; reflexivity || discriminate|].
  split; [reflexivity|]. split; [reflexivity|].
  intros H.
  specialize (H 0%nat 0 0.1 eq_refl eq_refl). by apply H.
Qed.

End Decay.

(** ** Bust status *)

Section Bust.
Import Player.

(** C8, as the code has it.  [is_busted] returns nothing and writes the
    stored flag [busted]: it leaves the hand alone and sets the flag when
    the total exceeds 21, never clearing it; from a flag that is
    [False], as every round starts with, the flag after the call is true
    exactly when the total exceeds 21.  [hit] does not touch the flag. *)
Theorem is_busted_sets_flag (self : t) (total : Z) :
  get_hand_sum self = Ok total →
  ∃ self', is_busted self = Ok self' ∧
    hand self' = hand self ∧
    busted self' = busted self || bool_decide (21 < total) ∧
    (busted self = false → (busted self' = true ↔ 21 < total)) ∧
    (∀ c deck, ∃ self2, hit self (c :: deck) = Ok (self2, deck) ∧
                        busted self2 = busted self).
Proof.
  intros H. unfold is_busted. rewrite H. cbn.
  destruct (Z.ltb_spec 21 total) as [Hlt|Hle].
  - eexists. split; [reflexivity|]. cbn.
    rewrite bool_decide_eq_true_2 by done. rewrite orb_true_r.
    repeat split; eauto.
  - eexists. split; [reflexivity|].
    rewrite bool_decide_eq_false_2 by lia. rewrite orb_false_r.
    split; [done|]. split; [done|]. split.
    + intros ->. split; [done | lia].
    + intros c deck. eexists. split; reflexivity.
Qed.

Lemma is_busted_sets_flag_witness :
  let self := {| busted := false; hand := [spade "K"; spade "Q"; spade "2"] |} in
  get_hand_sum self = Ok 22 ∧
  ∃ self', is_busted self = Ok self' ∧ busted self' = true.
Proof.
  cbv zeta. split; [reflexivity|].
  destruct (is_busted_sets_flag
              {| busted := false; hand := [spade "K"; spade "Q"; spade "2"] |}
              22 eq_refl)
    as (self' & H1 & _ & H2 & _).
  exists self'. split; [exact H1 | exact H2].
Defined.

(** C8, as the claim has it, fails: bust status is a stored attribute,
    and after the hit that takes K, Q to K, Q, 2 (total 22) it still
    says that the player has not busted. *)
Lemma busted_flag_out_of_sync :
  ∃ self, hit {| busted := false; hand := [spade "K"; spade "Q"] |}
              [spade "2"] = Ok (self, []) ∧
          get_hand_sum self = Ok 22 ∧ busted self = false ∧
          ¬ bust_flag_in_sync self.
Proof.
  eexists. split; [reflexivity|]. split; [reflexivity|].
  split; [reflexivity|].
  intros H. specialize (H 22 eq_refl). cbn in H.
  assert (false = true) by (apply H; lia). discriminate.
Qed.

End Bust.

(** ** The hand evaluator *)

Section HandEvaluator.
Import Player.

Lemma sum_cards_cons (c : Card.t) (cards : list Card.t) (s : Z) (a : nat) :
  sum_cards (c :: cards) s a
  = '(v, k) ← points c; sum_cards cards (s + v) (k + a).
Proof.
  cbn [sum_cards]. unfold points.
  destruct (isalpha (Card.rank c) && negb (String.eqb (Card.rank c) "A"));
    [reflexivity|].
  destruct (String.eqb (Card.rank c) "A"); [reflexivity|].
  destruct (int (Card.rank c)); reflexivity.
Qed.

Lemma points_raises (c : Card.t) (e : exception) :
  points c = Raise e → e = ValueError.
Proof.
  unfold points, int.
  destruct (isalpha (Card.rank c) && negb (String.eqb (Card.rank c) "A"));
    [discriminate|].
  destruct (String.eqb (Card.rank c) "A"); [discriminate|].
  destruct (Card.rank c); [cbn; congruence|].
  destruct (forallb _ _); cbn; congruence.
Qed.

Lemma sum_cards_Permutation (h1 h2 : list Card.t) :
  h1 ≡ₚ h2 → ∀ s a, sum_cards h1 s a = sum_cards h2 s a.
Proof.
  induction 1 as [|c l1 l2 _ IH|c1 c2 l|l1 l2 l3 _ IH1 _ IH2]; intros s a.
  - reflexivity.
  - rewrite !sum_cards_cons. destruct (points c) as [[v k]|e]; cbn; auto.
  - rewrite (sum_cards_cons c2), (sum_cards_cons c1).
    destruct (points c1) as [[v1 k1]|e1] eqn:E1,
             (points c2) as [[v2 k2]|e2] eqn:E2;
      rewrite ?bind_Ok, ?bind_Raise; cbn beta iota;
      rewrite ?sum_cards_cons, ?E1, ?E2, ?bind_Ok, ?bind_Raise; cbn beta iota.
    + f_equal; lia.
    + reflexivity.
    + reflexivity.
    + apply points_raises in E1, E2. congruence.
  - by rewrite IH1.
Qed.

(** C6. Two hands that are permutations of each other have the same
    total (and fail alike on a card whose rank is no rank); the total is
    a function of the hand alone, which [get_hand_sum] leaves as it
    was. *)
Theorem get_hand_sum_Permutation (h1 h2 : list Card.t) (b1 b2 : bool) :
  h1 ≡ₚ h2 →
  hand_sum_of h1 = hand_sum_of h2 ∧
  get_hand_sum {| busted := b1; hand := h1 |}
  = get_hand_sum {| busted := b2; hand := h2 |}.
Proof.
  intros H. unfold get_hand_sum, hand_sum_of. cbn [hand].
  by rewrite (sum_cards_Permutation h1 h2 H).
Qed.

Lemma get_hand_sum_Permutation_witness :
  [spade "A"; spade "9"; heart "A"] ≡ₚ [spade "9"; heart "A"; spade "A"] ∧
  hand_sum_of [spade "A"; spade "9"; heart "A"] = Ok 21 ∧
  hand_sum_of [spade "9"; heart "A"; spade "A"] = Ok 21.
Proof.
  assert ([spade "A"; spade "9"; heart "A"]
          ≡ₚ [spade "9"; heart "A"; spade "A"]) as HP.
  { change ([spade "A"] ++ [spade "9"; heart "A"]
            ≡ₚ [spade "9"; heart "A"] ++ [spade "A"]).
    apply Permutation_app_comm. }
  split; [exact HP|]. split; [reflexivity|].
  rewrite <- (proj1 (get_hand_sum_Permutation _ _ false false HP)).
  reflexivity.
Defined.

Lemma sum_cards_app (h1 h2 : list Card.t) (s : Z) (a : nat) :
  sum_cards (h1 ++ h2) s a
  = '(s', a') ← sum_cards h1 s a; sum_cards h2 s' a'.
Proof.
  revert s a. induction h1 as [|c h1 IH]; intros s a.
  - reflexivity.
  - rewrite <- app_comm_cons, !sum_cards_cons.
    destruct (points c) as [[v k]|e]; cbn; [apply IH | reflexivity].
Qed.

Lemma adjust_aces_ge (aces : nat) (s : Z) :
  s - 10 * Z.of_nat aces ≤ adjust_aces aces s.
Proof.
  revert s. induction aces as [|n IH]; intros s; cbn [adjust_aces].
  - lia.
  - destruct (Z.ltb_spec 21 s); [|lia].
    specialize (IH (s - 10)). lia.
Qed.

(** A total above 21 is one in which every Ace counts 1. *)
Lemma adjust_aces_bust (aces : nat) (s : Z) :
  21 < adjust_aces aces s ↔ 21 < s - 10 * Z.of_nat aces.
Proof.
  revert s. induction aces as [|n IH]; intros s; cbn [adjust_aces].
  - by rewrite Z.sub_0_r.
  - destruct (Z.ltb_spec 21 s).
    + rewrite IH. lia.
    + lia.
Qed.

(** A card of the deck counts 11 as an Ace and from 2 to 10 otherwise. *)
Lemma points_valid (c : Card.t) :
  valid_card c →
  ∃ v k, points c = Ok (v, k) ∧
         ((k = 0%nat ∧ 2 ≤ v ≤ 10) ∨ (k = 1%nat ∧ v = 11)).
Proof.
  destruct c as [r u]. unfold valid_card, points. cbn [Card.rank].
  intros H. apply list_elem_of_In in H. cbn in H.
  repeat (destruct H as [<-|H];
          [eexists _, _; split; [vm_compute; reflexivity | lia]|]).
  destruct H.
Qed.

(** C10. A hand that is bust stays bust whatever card of the deck is
    appended to it, although a total that is not above 21 can go down
    when a card arrives: Ace, 9 counts 20, and 15 once a 5 is drawn. *)
Theorem bust_is_irreversible (h : list Card.t) (c : Card.t) (total : Z) :
  valid_card c →
  hand_sum_of h = Ok total → 21 < total →
  (∃ total', hand_sum_of (h ++ [c]) = Ok total' ∧ 21 < total') ∧
  hand_sum_of [spade "A"; spade "9"] = Ok 20 ∧
  hand_sum_of ([spade "A"; spade "9"] ++ [spade "5"]) = Ok 15.
Proof.
  intros Hc Hh Hbust. split; [|split; reflexivity].
  unfold hand_sum_of in *. rewrite sum_cards_app.
  destruct (sum_cards h 0 0) as [[s a]|e]; [|discriminate].
  rewrite bind_Ok in *. cbn beta iota in *.
  injection Hh as <-.
  rewrite sum_cards_cons.
  destruct (points_valid c Hc) as (v & k & -> & Hv).
  rewrite bind_Ok. cbn.
  eexists. split; [reflexivity|].
  apply adjust_aces_bust. apply adjust_aces_bust in Hbust. lia.
Qed.

Lemma bust_is_irreversible_witness :
  hand_sum_of [spade "K"; spade "Q"; spade "2"] = Ok 22 ∧
  ∃ total', hand_sum_of ([spade "K"; spade "Q"; spade "2"] ++ [spade "A"])
            = Ok total' ∧ 21 < total'.
Proof.
  split; [reflexivity|].
  apply (bust_is_irreversible [spade "K"; spade "Q"; spade "2"] (spade "A") 22).
  - apply list_elem_of_In. cbn. tauto.
  - reflexivity.
  - reflexivity.
Defined.

End HandEvaluator.

(** ** The deck *)

Section DeckFacts.

Lemma init_length : length Deck.init = 52%nat.
Proof. reflexivity. Qed.

Lemma init_NoDup : NoDup Deck.init.
Proof. apply (bool_decide_unpack _). vm_compute. exact I. Qed.

Lemma init_cards (c : Card.t) :
  c ∈ Deck.init ↔ Card.rank c ∈ Deck.ranks ∧ Card.suit c ∈ Deck.suits.
Proof.
  unfold Deck.init. split.
  - intros H. apply list_elem_of_In, in_flat_map in H as (u & Hu & Hc).
    apply in_map_iff in Hc as (r & <- & Hr).
    cbn [Card.rank Card.suit]. by rewrite !list_elem_of_In.
  - intros [Hr Hu]. apply list_elem_of_In, in_flat_map.
    exists (Card.suit c). rewrite <- list_elem_of_In.
    split; [done|]. apply in_map_iff. exists (Card.rank c).
    rewrite <- list_elem_of_In. split; [by destruct c | done].
Qed.

Lemma swap_Permutation {A} (x : list A) (i j : nat) : swap x i j ≡ₚ x.
Proof.
  unfold swap.
  destruct (x !! i) as [a|] eqn:Ei; [|done].
  destruct (x !! j) as [b|] eqn:Ej; [|done].
  by apply Permutation_insert_swap.
Qed.

Lemma shuffle_from_Permutation {A} (i : nat) (x : list A) (g : Random) :
  (shuffle_from i x g).1 ≡ₚ x.
Proof.
  revert x g. induction i as [|i IH]; intros x g.
  - done.
  - cbn [shuffle_from]. destruct (randbelow (S (S i)) g) as [j g'].
    rewrite IH. apply swap_Permutation.
Qed.

Lemma shuffle_deck_Permutation (d : Deck.t) (g : Random) :
  (Deck.shuffle_deck d g).1 ≡ₚ d.
Proof. apply shuffle_from_Permutation. Qed.

Lemma deal_cards_all (d : Deck.t) : deal_cards (length d) d = Ok (d, []).
Proof.
  induction d as [|c d IH]; [reflexivity|].
  cbn [length deal_cards Deck.deal_card]. rewrite bind_Ok. cbn beta iota.
  by rewrite IH.
Qed.

Lemma deal_cards_too_many (d : Deck.t) :
  deal_cards (S (length d)) d = Raise IndexError.
Proof.
  induction d as [|c d IH]; [reflexivity|].
  change (deal_cards (S (length (c :: d))) (c :: d))
    with ('(cs, d2) ← deal_cards (S (length d)) d; Ok (c :: cs, d2)).
  by rewrite IH.
Qed.

(** C7, as the code has it.  A new deck holds 52 cards, no two alike:
    one for every rank and suit.  Whatever the shuffle, 52 calls of
    [deal_card] return these 52 cards, each once, and leave the deck
    empty; the 53rd call fails, with the [IndexError] of [list.pop]. *)
Theorem deck_deals_every_card_once (g : Random) :
  length Deck.init = 52%nat ∧ NoDup Deck.init ∧
  (∀ c, c ∈ Deck.init ↔ Card.rank c ∈ Deck.ranks ∧ Card.suit c ∈ Deck.suits) ∧
  (∃ dealt,
     deal_cards 52 (Deck.shuffle_deck Deck.init g).1 = Ok (dealt, []) ∧
     dealt ≡ₚ Deck.init ∧ NoDup dealt ∧ length dealt = 52%nat ∧
     (∀ c, c ∈ Deck.init ↔ c ∈ dealt)) ∧
  Deck.deal_card [] = Raise IndexError ∧
  deal_cards 53 (Deck.shuffle_deck Deck.init g).1 = Raise IndexError.
Proof.
  pose proof (shuffle_deck_Permutation Deck.init g) as HP.
  assert (length (Deck.shuffle_deck Deck.init g).1 = 52%nat) as Hlen
    by (by rewrite HP).
  split; [apply init_length|]. split; [apply init_NoDup|].
  split; [apply init_cards|]. split; [|split; [reflexivity|]].
  - exists (Deck.shuffle_deck Deck.init g).1.
    split; [rewrite <- Hlen; apply deal_cards_all|].
    split; [exact HP|]. split; [rewrite HP; apply init_NoDup|].
    split; [exact Hlen|]. intros c. by rewrite HP.
  - change 53%nat with (S 52). rewrite <- Hlen. apply deal_cards_too_many.
Qed.

(** C7, as the claim has it, fails on the name of the error: the program
    has no [EmptyDeckError]; dealing from the empty deck is
    [self.cards.pop(0)] on an empty list, which raises [IndexError]. *)
Lemma deal_card_empty_not_EmptyDeckError :
  deal_cards 53 (Deck.shuffle_deck Deck.init all_zero).1 = Raise IndexError ∧
  ¬ ∃ e, deal_cards 53 (Deck.shuffle_deck Deck.init all_zero).1 = Raise e ∧
         exception_name e = "EmptyDeckError".
Proof.
  assert (deal_cards 53 (Deck.shuffle_deck Deck.init all_zero).1
          = Raise IndexError) as H by (vm_compute; reflexivity).
  split; [exact H|]. intros (e & He & Hn). rewrite H in He.
  injection He as <-. discriminate.
Qed.

End DeckFacts.

(** ** The training episode *)

Section Episode.
Import AI_Player.

Lemma same_learning_refl (s : t) : same_learning s s.
Proof. by repeat split. Qed.

Lemma same_learning_trans (s1 s2 s3 : t) :
  same_learning s1 s2 → same_learning s2 s3 → same_learning s1 s3.
Proof.
  intros (? & ? & ? & ?) (? & ? & ? & ?). repeat split; congruence.
Qed.

Lemma update_q_value_same_learning (s1 s2 : t) (st : state) (a : action)
    (reward : Q) (next_state : state) :
  same_learning s1 s2 →
  same_learning (update_q_value s1 st a reward next_state)
                (update_q_value s2 st a reward next_state).
Proof.
  intros (Hq & Ha & Hg & He).
  unfold same_learning, update_q_value, next_max, q_get. cbn.
  rewrite Hq, Ha, Hg, He. by repeat split.
Qed.

Lemma replay_same_learning (trace : list update) (s1 s2 : t) :
  same_learning s1 s2 → same_learning (replay s1 trace) (replay s2 trace).
Proof.
  revert s1 s2. induction trace as [|u trace IH]; intros s1 s2 H; [done|].
  apply IH. by apply update_q_value_same_learning.
Qed.

Lemma replay_params (trace : list update) (s : t) :
  alpha (replay s trace) = alpha s ∧ gamma (replay s trace) = gamma s ∧
  epsilon (replay s trace) = epsilon s ∧ base (replay s trace) = base s.
Proof.
  revert s. induction trace as [|u trace IH]; intros s; [done|].
  apply (IH (update_q_value s _ _ _ _)).
Qed.

Lemma replay_app (s : t) (l1 l2 : list update) :
  replay s (l1 ++ l2) = replay (replay s l1) l2.
Proof. apply fold_left_app. Qed.

(** The loop, with [self.hit(deck)] as the source writes it. *)
Lemma agent_turn_hit (deck : Deck.t) (self : t) (dealer : Dealer.t)
    (st : state) (choice : option action) (g : Random) (trace : list update) :
  agent_turn deck self dealer st choice g trace
  = if Player.busted (base self)
    then Ok (Round self dealer deck st choice g trace)
    else
      '(c, g1) ← choose_action self st g;
      if String.eqb c "stand"
      then Ok (Round self dealer deck st (Some c) g1 trace)
      else
        '(self1, deck') ← hit self deck;
        self2 ← is_busted self1;
        '(reward, next_state) ←
          (if Player.busted (base self2)
           then Ok ((-1)%Q, None)
           else
             total ← get_hand_sum self2;
             upcard ← getitem (Player.hand dealer) 0;
             next_state ← get_state total upcard;
             Ok (1%Q, next_state));
        agent_turn deck' (update_q_value self2 st c reward next_state)
          dealer next_state (Some c) g1
          (trace ++ [Update st c reward next_state]).
Proof.
  destruct deck as [|card deck']; cbn [agent_turn];
    destruct (Player.busted (base self)) eqn:Hb; try reflexivity;
    destruct (choose_action self st g) as [[c g1]|e]; try reflexivity;
    rewrite !bind_Ok; cbn beta iota;
    destruct (String.eqb c "stand"); try reflexivity;
    unfold hit, Player.hit; cbn [Deck.deal_card];
    rewrite ?bind_Ok, ?bind_Raise; cbn beta iota;
    rewrite ?bind_Ok, ?Hb; reflexivity.
Qed.

Lemma choose_action_total (self : t) (st : state) (g : Random) :
  ∃ c g1, choose_action self st g = Ok (c, g1) ∧ (c = "hit" ∨ c = "stand").
Proof.
  unfold choose_action. destruct (random g) as [r g1].
  destruct (negb (Qle_bool (epsilon self) r)).
  - unfold choice, randbelow, next. cbn [length].
    assert (g1 0%nat mod N.of_nat 2 < 2)%N as Hlt
      by (apply N.mod_lt; discriminate).
    destruct (N.to_nat (g1 0%nat mod N.of_nat 2)) as [|[|n]] eqn:E;
      cbn; eauto 6.
    lia.
  - destruct (Qle_bool _ _); eauto 6.
Qed.

Lemma sum_cards_valid (h : list Card.t) :
  Forall valid_card h →
  ∀ s a, ∃ s' a', Player.sum_cards h s a = Ok (s', a') ∧
                  s - 10 * Z.of_nat a + Z.of_nat (length h)
                  ≤ s' - 10 * Z.of_nat a'.
Proof.
  induction 1 as [|c h Hc _ IH]; intros s a.
  - exists s, a. split; [reflexivity | cbn; lia].
  - rewrite sum_cards_cons.
    destruct (points_valid c Hc) as (v & k & -> & Hv). rewrite bind_Ok.
    cbn beta iota.
    destruct (IH (s + v) (k + a)%nat) as (s' & a' & -> & Hs).
    exists s', a'. split; [reflexivity|]. cbn [length]. lia.
Qed.

(** Every card counts at least 1: a hand counts at least its size. *)
Lemma hand_sum_valid (h : list Card.t) :
  Forall valid_card h →
  ∃ total, Player.hand_sum_of h = Ok total ∧ Z.of_nat (length h) ≤ total.
Proof.
  intros H. unfold Player.hand_sum_of.
  destruct (sum_cards_valid h H 0 0%nat) as (s & a & -> & Hs).
  rewrite bind_Ok. cbn beta iota. eexists. split; [reflexivity|].
  pose proof (adjust_aces_ge a s). lia.
Qed.

(** The two cards of the deal never count more than 21. *)
Lemma two_cards_sum (c1 c2 : Card.t) :
  valid_card c1 → valid_card c2 →
  ∃ total, Player.hand_sum_of [c1; c2] = Ok total ∧ total ≤ 21.
Proof.
  intros H1 H2. unfold Player.hand_sum_of.
  rewrite !sum_cards_cons.
  destruct (points_valid c1 H1) as (v1 & k1 & -> & Hv1).
  rewrite bind_Ok. cbn beta iota. rewrite sum_cards_cons.
  destruct (points_valid c2 H2) as (v2 & k2 & -> & Hv2).
  rewrite bind_Ok. cbn beta iota. cbn [Player.sum_cards].
  rewrite bind_Ok. cbn beta iota. eexists. split; [reflexivity|].
  destruct Hv1 as [[-> Hv1]|[-> ->]], Hv2 as [[-> Hv2]|[-> ->]];
    cbn [Nat.add Player.adjust_aces];
    repeat (match goal with
            | |- context [?x <? ?y] => destruct (Z.ltb_spec x y)
            end);
    lia.
Qed.

Lemma get_state_valid (total : Z) (c : Card.t) :
  valid_card c →
  ∃ v, get_state total c = Ok (Some (total, v)) ∧ 2 ≤ v ≤ 11.
Proof.
  destruct c as [r u]. unfold valid_card, get_state. cbn [Card.rank].
  intros H. apply list_elem_of_In in H. cbn in H.
  repeat (destruct H as [<-|H];
          [eexists; split; [vm_compute; reflexivity | lia]|]).
  destruct H.
Qed.

Lemma agent_turn_busted (deck : Deck.t) (self : t) (dealer : Dealer.t)
    (st : state) (choice : option action) (g : Random) (trace : list update) :
  Player.busted (base self) = true →
  agent_turn deck self dealer st choice g trace
  = Ok (Round self dealer deck st choice g trace).
Proof. intros H. rewrite agent_turn_hit. by rewrite H. Qed.

Lemma agent_turn_stand (deck : Deck.t) (self : t) (dealer : Dealer.t)
    (st : state) (choice : option action) (g g1 : Random)
    (trace : list update) :
  Player.busted (base self) = false →
  choose_action self st g = Ok ("stand", g1) →
  agent_turn deck self dealer st choice g trace
  = Ok (Round self dealer deck st (Some "stand") g1 trace).
Proof. intros H Hc. rewrite agent_turn_hit. by rewrite H, Hc. Qed.

Lemma player_hit_cons (p : Player.t) (card : Card.t) (deck : Deck.t) :
  Player.hit p (card :: deck)
  = Ok ({| Player.busted := Player.busted p;
           Player.hand := Player.hand p ++ [card] |}, deck).
Proof. reflexivity. Qed.

Lemma hit_cons (self : t) (card : Card.t) (deck : Deck.t) :
  hit self (card :: deck)
  = Ok (with_base self
          {| Player.busted := Player.busted (base self);
             Player.hand := Player.hand (base self) ++ [card] |}, deck).
Proof. reflexivity. Qed.

Lemma is_busted_spec (self : t) (total : Z) :
  get_hand_sum self = Ok total →
  is_busted self
  = Ok (with_base self
          {| Player.busted := Player.busted (base self) || (21 <? total);
             Player.hand := Player.hand (base self) |}).
Proof.
  unfold is_busted, Player.is_busted, get_hand_sum. intros ->.
  rewrite bind_Ok. destruct (21 <? total); rewrite bind_Ok.
  - by rewrite orb_true_r.
  - rewrite orb_false_r. by destruct (base self).
Qed.

Lemma turn_post_stand (upcard : Card.t) (self : t) (deck : Deck.t)
    (dealer : Dealer.t) (st : state) (g1 : Random) (trace : list update)
    (total : Z) :
  Forall valid_card (Player.hand (base self)) →
  Player.busted (base self) = false →
  get_hand_sum self = Ok total → total ≤ 21 →
  get_state total upcard = Ok st →
  turn_post upcard self deck dealer trace
    (Round self dealer deck st (Some "stand") g1 trace).
Proof.
  intros Hhand Hflag Hsum Hle Hst. unfold turn_post. cbn.
  split; [done|]. split; [done|]. split; [done|].
  exists [], total. rewrite Hflag, app_nil_r, Nat.add_0_r.
  split; [done|]. split; [apply same_learning_refl|].
  do 2 (split; [done|]). by repeat split.
Qed.

(** The loop after a hit that did not bust is the loop from the new
    state, one update later. *)
Lemma turn_post_step (upcard card : Card.t) (self self2 : t) (deck : Deck.t)
    (dealer : Dealer.t) (st next_state : state) (trace : list update)
    (r : round) :
  same_learning self2 self →
  Player.hand (base self2) = Player.hand (base self) ++ [card] →
  next_state ≠ None →
  turn_post upcard (update_q_value self2 st "hit" 1 next_state) deck dealer
    (trace ++ [Update st "hit" 1 next_state]) r →
  turn_post upcard self (card :: deck) dealer trace r.
Proof.
  intros Hsame Hhand Hnext (Hd & Hcards & Hvalid & steps & total & Htr & Hl & Hn & Hsum & Hcase).
  cbn [update_q_value base] in Hcards, Hn.
  rewrite Hhand in Hcards, Hn.
  split; [done|]. split; [by rewrite Hcards, <- app_assoc|].
  split; [done|].
  exists (Update st "hit" 1 next_state :: steps), total.
  split; [by rewrite Htr, <- app_assoc|]. split.
  { eapply same_learning_trans; [exact Hl|].
    change (replay self (Update st "hit" 1 next_state :: steps))
      with (replay (update_q_value self st "hit" 1 next_state) steps).
    apply replay_same_learning. by apply update_q_value_same_learning. }
  split; [rewrite Hn, length_app; cbn; lia|]. split; [done|].
  assert (hit_update (Update st "hit" 1 next_state)) as Hu by done.
  destruct (Player.busted (base (r_self r))).
  - destruct Hcase as (Hb & Hs & Hc & hits & s & -> & Hhits).
    do 3 (split; [done|]).
    exists (Update st "hit" 1 next_state :: hits), s.
    split; [done | by constructor].
  - destruct Hcase as (Hb & Hs & Hc & Hhits).
    do 3 (split; [done|]). by constructor.
Qed.

Lemma agent_turn_spec (deck : Deck.t) :
  ∀ (self : t) (dealer : Dealer.t) (st : state) (choice : option action)
    (g : Random) (trace : list update) (upcard : Card.t) (total : Z),
    Player.hand dealer !! 0%nat = Some upcard → valid_card upcard →
    Forall valid_card (Player.hand (base self)) → Forall valid_card deck →
    (22 ≤ length (Player.hand (base self)) + length deck)%nat →
    Player.busted (base self) = false →
    get_hand_sum self = Ok total → total ≤ 21 →
    get_state total upcard = Ok st →
    ∃ r, agent_turn deck self dealer st choice g trace = Ok r ∧
         turn_post upcard self deck dealer trace r.
Proof.
  induction deck as [|card deck IH];
    intros self dealer st choice g trace upcard total
           Hup Hupv Hhand Hdeck Hlen Hflag Hsum Hle Hst;
    rewrite agent_turn_hit, Hflag;
    destruct (choose_action_total self st g) as (c & g1 & -> & [->| ->]);
    rewrite bind_Ok; cbn beta iota;
    change (String.eqb "hit" "stand") with false;
    change (String.eqb "stand" "stand") with true; cbn match.
  - (* a hit on an empty deck: the hand would hold 22 cards *)
    exfalso. destruct (hand_sum_valid _ Hhand) as (t & Ht & Hge).
    unfold get_hand_sum, Player.get_hand_sum in Hsum.
    rewrite Hsum in Ht. injection Ht as <-. cbn [length] in Hlen. lia.
  - eexists. split; [reflexivity|]. by eapply turn_post_stand.
  - rewrite hit_cons, bind_Ok. cbn beta iota.
    set (self1 := with_base self _).
    assert (Forall valid_card (Player.hand (base self) ++ [card])) as Hhand1.
    { apply Forall_app. split; [done|]. constructor; [|constructor].
      by inversion Hdeck. }
    destruct (hand_sum_valid _ Hhand1) as (total1 & Hsum1 & Hge1).
    rewrite (is_busted_spec self1 total1 Hsum1), bind_Ok.
    cbn [self1 base with_base Player.busted Player.hand].
    rewrite Hflag. cbn [orb].
    destruct (Z.ltb_spec 21 total1) as [Hbust|Hok].
    + rewrite bind_Ok. cbn beta iota.
      rewrite agent_turn_busted by reflexivity.
      eexists. split; [reflexivity|].
      unfold turn_post. cbn.
      split; [done|]. split; [by rewrite <- app_assoc|]. split; [done|].
      exists [Update st "hit" (-1)%Q None], total1.
      split; [done|]. split.
      { apply update_q_value_same_learning. by repeat split. }
      split; [rewrite length_app; cbn; lia|]. split; [done|].
      do 3 (split; [done|]). by exists [], st.
    + unfold get_hand_sum at 1, Player.get_hand_sum at 1.
      cbn [base with_base Player.hand].
      rewrite Hsum1, bind_Ok. unfold getitem. rewrite Hup, bind_Ok.
      destruct (get_state_valid total1 upcard Hupv) as (v & Hns & _).
      rewrite Hns, !bind_Ok. cbn beta iota.
      inversion Hdeck as [|? ? Hcard Hdeck']; subst.
      edestruct (IH (update_q_value
                       (with_base self
                          {| Player.busted := false;
                             Player.hand := Player.hand (base self) ++ [card] |})
                       st "hit" 1 (Some (total1, v)))
                    dealer (Some (total1, v)) (Some "hit") g1
                    (trace ++ [Update st "hit" 1 (Some (total1, v))])
                    upcard total1)
        as (r & Hr & Hpost); try done.
      { cbn. rewrite length_app. cbn in *. lia. }
      exists r. split; [exact Hr|].
      refine (turn_post_step upcard card self _ deck dealer st _ trace r
                _ _ _ Hpost).
      * by repeat split.
      * reflexivity.
      * discriminate.
  - eexists. split; [reflexivity|]. by eapply turn_post_stand.
Qed.

Lemma update_q_value_base (s : t) (st : state) (a : action) (reward : Q)
    (next_state : state) :
  base (update_q_value s st a reward next_state) = base s.
Proof. reflexivity. Qed.

Lemma update_q_value_alpha (s : t) (st : state) (a : action) (reward : Q)
    (next_state : state) :
  alpha (update_q_value s st a reward next_state) = alpha s.
Proof. reflexivity. Qed.

Lemma update_q_value_gamma (s : t) (st : state) (a : action) (reward : Q)
    (next_state : state) :
  gamma (update_q_value s st a reward next_state) = gamma s.
Proof. reflexivity. Qed.

Lemma update_q_value_epsilon (s : t) (st : state) (a : action) (reward : Q)
    (next_state : state) :
  epsilon (update_q_value s st a reward next_state) = epsilon s.
Proof. reflexivity. Qed.

Local Ltac round_simpl :=
  cbn [r_self r_dealer r_deck r_state r_choice r_random r_trace
       decay_exploration base q_table alpha gamma epsilon
       get_hand_sum upd_state upd_action upd_reward upd_next];
  rewrite ?update_q_value_base, ?update_q_value_alpha,
    ?update_q_value_gamma, ?update_q_value_epsilon.

Lemma choose_action_same_learning (s1 s2 : t) (st : state) (g : Random) :
  same_learning s1 s2 → choose_action s1 st g = choose_action s2 st g.
Proof.
  intros (Hq & _ & _ & He). unfold choose_action, q_get.
  by rewrite Hq, He.
Qed.

Lemma settlement_reward_spec (total dealer_total : Z) :
  settlement_reward total dealer_total
    (if total <? dealer_total then (-0.5)%Q
     else if dealer_total =? total then 0.5%Q else 1%Q).
Proof.
  unfold settlement_reward.
  destruct (Z.ltb_spec total dealer_total), (Z.eqb_spec dealer_total total);
    repeat split; intros; (reflexivity || lia).
Qed.

Lemma play_round_spec (self : t) (choice : option action) (g : Random)
    (c1 c2 c3 c4 : Card.t) (rest : list Card.t) :
  base self = {| Player.busted := false; Player.hand := [] |} →
  Forall valid_card (c1 :: c2 :: c3 :: c4 :: rest) →
  (20 ≤ length rest)%nat →
  ∃ r, play_round self choice (c1 :: c2 :: c3 :: c4 :: rest) g = Ok r ∧
       round_post self g c1 c2 c3 c4 rest r.
Proof.
  intros Hbase Hvalid Hrest.
  inversion Hvalid as [|? ? Hv1 Hvalid1]; subst.
  inversion Hvalid1 as [|? ? Hv2 Hvalid2]; subst.
  inversion Hvalid2 as [|? ? Hv3 Hvalid3]; subst.
  inversion Hvalid3 as [|? ? Hv4 Hvalid4]; subst.
  unfold play_round.
  rewrite hit_cons, bind_Ok. cbn beta iota.
  rewrite hit_cons, bind_Ok. cbn beta iota.
  rewrite player_hit_cons, bind_Ok. cbn beta iota.
  rewrite player_hit_cons, bind_Ok. cbn beta iota.
  cbn [base with_base Player.init Player.busted Player.hand app].
  rewrite Hbase. cbn [Player.busted Player.hand app].
  set (self0 := with_base _ _).
  set (dealer := {| Player.busted := false; Player.hand := [c3; c4] |}).
  destruct (two_cards_sum c1 c2 Hv1 Hv2) as (total0 & Hsum0 & Hle0).
  destruct (get_state_valid total0 c3 Hv3) as (v0 & Hst0 & _).
  assert (get_hand_sum self0 = Ok total0) as Hsum0' by exact Hsum0.
  rewrite Hsum0', bind_Ok. unfold getitem at 1; cbn [dealer Player.hand lookup list_lookup].
  rewrite bind_Ok, Hst0, bind_Ok.
  destruct (agent_turn_spec rest self0 dealer (Some (total0, v0)) choice g []
              c3 total0) as (r & Hr & Hpost); try done.
  { constructor; [done|]. constructor; [done | constructor]. }
  { cbn. lia. }
  rewrite Hr, bind_Ok.
  destruct Hpost as (Hd & Hcards & Hvalid' & steps & total & Htr & Hl & Hn & Hsum & Hcase).
  cbn [app] in Htr. cbn [self0 base with_base Player.hand length] in Hcards, Hn.
  assert (same_learning self0 self) as Hself0 by (by repeat split).
  assert (same_learning (r_self r) (replay self steps)) as Hl'.
  { eapply same_learning_trans; [exact Hl|]. by apply replay_same_learning. }
  destruct (replay_params steps self) as (Hpa & Hpg & Hpe & _).
  destruct Hl' as (Hq & Ha & Hg & He).
  rewrite Hpa in Ha. rewrite Hpg in Hg. rewrite Hpe in He.
  assert (∀ g2, choose_action self (Some (total0, v0)) g = Ok ("stand", g2) →
                r = Round self0 dealer rest (Some (total0, v0)) (Some "stand") g2 [])
    as Hfirst.
  { intros g2 Hc.
    rewrite <- (choose_action_same_learning self0 self _ _ Hself0) in Hc.
    rewrite (agent_turn_stand rest self0 dealer _ choice g g2 [] eq_refl Hc) in Hr.
    by injection Hr. }
  destruct (Player.get_hand_sum dealer) as [dealer_total|] eqn:Hdsum;
    [|destruct (two_cards_sum c3 c4 Hv3 Hv4) as (? & Hx & _);
      unfold Player.get_hand_sum, dealer in Hdsum;
      cbn [Player.hand] in Hdsum; congruence].
  unfold settle.
  destruct (Player.busted (base (r_self r))) eqn:Hflag.
  - (* the agent has busted: no settlement *)
    destruct Hcase as (Hb & Hs & Hc & hits & s & -> & Hhits).
    rewrite bind_Ok. eexists. split; [reflexivity|].
    unfold round_post; round_simpl. rewrite Hflag.
    split; [done|]. split; [done|]. rewrite Htr.
    split; [done|]. split; [by rewrite Ha|]. split; [by rewrite Hg|].
    split; [by rewrite He|].
    exists total, dealer_total, total0, (Some (total0, v0)), hits,
           (Update s "hit" (-1)%Q None).
    rewrite Hd. split; [done|]. split; [done|]. split; [done|].
    split; [done|]. split; [done|]. split; [done|]. split; [done|].
    split; [rewrite Hn, length_app; cbn; lia|].
    split; [done|]. split; [done|]. split; [done|].
    intros g2 Hc2. rewrite (Hfirst g2 Hc2) in Hflag. discriminate.
  - destruct Hcase as (Hb & Hs & Hc & Hhits).
    rewrite Hd, Hdsum, bind_Ok, Hsum, bind_Ok, Hc. cbn [local].
    rewrite bind_Ok. rewrite bind_Ok.
    eexists. split; [reflexivity|].
    unfold round_post; round_simpl. rewrite Hflag.
    set (reward := if total <? dealer_total then _ else _).
    split; [done|]. split; [done|]. rewrite Htr.
    split.
    { rewrite replay_app.
      refine (proj1 (update_q_value_same_learning (r_self r)
                       (replay self steps) _ _ _ _ _)).
      by rewrite <- Hpa, <- Hpg, <- Hpe in *. }
    split; [by rewrite Ha|]. split; [by rewrite Hg|].
    split; [by rewrite He|].
    exists total, dealer_total, total0, (Some (total0, v0)), steps,
           (Update (r_state r) "stand" reward None).
    split; [done|]. split; [done|]. split; [done|].
    split; [done|]. split; [done|]. split; [done|]. split; [done|].
    split; [rewrite Hn; lia|].
    split; [split; [discriminate | lia]|]. split; [discriminate|].
    split.
    { intros _. split; [done|]. split; [done|].
      apply settlement_reward_spec. }
    intros g2 Hc2. pose proof (Hfirst g2 Hc2) as ->.
    cbn in *. split; [done|]. split; [by destruct steps|].
    split; [done|]. congruence.
Qed.

(** Every episode runs to its end: the shuffled deck has its 52 cards,
    the agent has busted long before they are all drawn, and the
    variable [choice] is assigned before the settlement reads it. *)
Lemma episode_spec (self : t) (choice : option action) (g : Random) :
  ∃ c1 c2 c3 c4 rest r,
    (Deck.shuffle_deck Deck.init g).1 = c1 :: c2 :: c3 :: c4 :: rest ∧
    episode self choice g = Ok r ∧
    round_post (with_base self {| Player.busted := false; Player.hand := [] |})
      (Deck.shuffle_deck Deck.init g).2 c1 c2 c3 c4 rest r.
Proof.
  unfold episode.
  pose proof (shuffle_deck_Permutation Deck.init g) as HP.
  destruct (Deck.shuffle_deck Deck.init g) as [deck g1]. cbn [fst snd] in *.
  assert (length deck = 52%nat) as Hlen by (by rewrite HP).
  assert (Forall valid_card deck) as Hvalid.
  { apply Forall_forall. intros c Hc. rewrite HP in Hc.
    by apply init_cards in Hc as [Hc _]. }
  destruct deck as [|c1 [|c2 [|c3 [|c4 rest]]]]; try discriminate.
  destruct (play_round_spec
              (with_base self {| Player.busted := false; Player.hand := [] |})
              choice g1 c1 c2 c3 c4 rest eq_refl Hvalid) as (r & Hr & Hpost).
  { cbn [length] in Hlen. lia. }
  by exists c1, c2, c3, c4, rest, r.
Qed.

(** C3. Every training episode runs to its end, and its updates of the
    table are those of the trace: one per hit that did not bust, each
    with a next state, followed by exactly one update with the terminal
    mark.  When the agent has not busted that last update is the
    settlement: it is made against stand at the state of the agent's
    final hand, with reward -0.5 if the dealer's total is the greater,
    0.5 if the totals are equal and 1 otherwise.  When the agent has
    busted the last update is the one of the busting hit (reward -1) and
    no settlement update follows.  When the first action chosen is
    stand, the trace is that single settlement update, made against
    stand at the state of the first two cards. *)
Theorem train_episode_settlement (self : t) (choice : option action)
    (g : Random) :
  ∃ r total dealer_total upcard total0 st0 hits last,
    episode self choice g = Ok r ∧
    get_hand_sum (r_self r) = Ok total ∧
    Player.get_hand_sum (r_dealer r) = Ok dealer_total ∧
    Player.hand (r_dealer r) !! 0%nat = Some upcard ∧
    (Player.busted (base (r_self r)) = true ↔ 21 < total) ∧
    r_trace r = hits ++ [last] ∧
    Forall hit_update hits ∧
    upd_next last = None ∧
    (∀ s, next_max s (upd_next last) = 0%Q) ∧
    q_table (r_self r) = q_table (replay self (r_trace r)) ∧
    (Player.busted (base (r_self r)) = false →
       upd_action last = "stand" ∧
       get_state total upcard = Ok (upd_state last) ∧
       (total < dealer_total → upd_reward last = (-0.5)%Q) ∧
       (total = dealer_total → upd_reward last = 0.5%Q) ∧
       (dealer_total < total → upd_reward last = 1%Q) ∧
       length (Player.hand (base (r_self r))) = (2 + length hits)%nat) ∧
    (Player.busted (base (r_self r)) = true →
       upd_action last = "hit" ∧ upd_reward last = (-1)%Q ∧
       length (Player.hand (base (r_self r))) = (3 + length hits)%nat) ∧
    Player.hand_sum_of (take 2 (Player.hand (base (r_self r)))) = Ok total0 ∧
    get_state total0 upcard = Ok st0 ∧
    (∀ g2, choose_action self st0 (Deck.shuffle_deck Deck.init g).2
           = Ok ("stand", g2) →
           Player.busted (base (r_self r)) = false ∧ hits = [] ∧
           upd_state last = st0 ∧ upd_action last = "stand").
Proof.
  destruct (episode_spec self choice g)
    as (c1 & c2 & c3 & c4 & rest & r & _ & Hr & Hpost).
  set (self0 := with_base self _) in Hpost.
  assert (same_learning self0 self) as Hsame by (by repeat split).
  destruct Hpost as (Hd & Hcards & Hq & _ & _ & _ & total & dealer_total
                     & total0 & st0 & hits & last & Hsum & Hdsum & Hsum0
                     & Hst0 & Htr & Hhits & Hlast & Hlen & Hsync & Hbust
                     & Hsettle & Hfirst).
  exists r, total, dealer_total, c3, total0, st0, hits, last.
  split; [exact Hr|]. split; [exact Hsum|]. split; [exact Hdsum|].
  split; [by rewrite Hd|]. split; [exact Hsync|]. split; [exact Htr|].
  split; [exact Hhits|]. split; [exact Hlast|].
  split; [by rewrite Hlast|].
  split.
  { rewrite Hq. by apply replay_same_learning. }
  split.
  { intros Hflag. destruct (Hsettle Hflag) as (Ha & Hs & Hlt & Heq & Hgt).
    rewrite Hflag in Hlen. repeat (split; [done|]). lia. }
  split.
  { intros Hflag. destruct (Hbust Hflag) as (Ha & Hrw).
    rewrite Hflag in Hlen. repeat (split; [done|]). lia. }
  split.
  { rewrite <- (take_app_le _ (r_deck r)) by lia. by rewrite Hcards. }
  split; [exact Hst0|].
  intros g2 Hc.
  rewrite <- (choose_action_same_learning self0 self _ _ Hsame) in Hc.
  destruct (Hfirst g2 Hc) as (Hflag & Hnil & Hst & _).
  repeat (split; [done|]). by apply Hsettle.
Qed.

(** C2. In [train_module] the dealer never takes a turn: in every episode
    the dealer holds, when the totals are compared, the two cards of the
    deal and no other.  On the deck 3, 4, 5, 6, 7, ... the agent stands on
    3, 4 and the dealer holds 5, 6: a total of 11, on which [should_hit]
    says to draw, and with which the settlement is made all the same (the
    agent loses, reward -0.5).  The loop of [play_game] would have taken
    the dealer to 5, 6, 7. *)
Theorem train_dealer_takes_no_turn :
  (∀ self choice g,
     ∃ r c3 c4, episode self choice g = Ok r ∧
                r_dealer r = {| Player.busted := false;
                                Player.hand := [c3; c4] |}) ∧
  ∃ r deck,
    episode AI_Player.create None shuffle_then_stand = Ok r ∧
    Player.hand (base (r_self r)) = [spade "3"; spade "4"] ∧
    Player.busted (base (r_self r)) = false ∧
    r_choice r = Some "stand" ∧
    r_dealer r = {| Player.busted := false;
                    Player.hand := [spade "5"; spade "6"] |} ∧
    Player.get_hand_sum (r_dealer r) = Ok 11 ∧
    Dealer.should_hit (r_dealer r) = Ok true ∧
    r_trace r = [Update (Some (7, 5)) "stand" (-0.5)%Q None] ∧
    r_deck r = spade "7" :: deck ∧
    Game.dealer_turn (r_deck r) (r_dealer r)
    = Ok ({| Player.busted := false;
             Player.hand := [spade "5"; spade "6"; spade "7"] |}, deck).
Proof.
  split.
  { intros self choice g.
    destruct (episode_spec self choice g)
      as (c1 & c2 & c3 & c4 & rest & r & _ & Hr & Hd & _).
    by exists r, c3, c4. }
  destruct (episode AI_Player.create None shuffle_then_stand) as [r|e] eqn:E;
    [|vm_compute in E; discriminate].
  exists r, (tl (r_deck r)).
  split; [reflexivity|].
  assert (Ok r = episode AI_Player.create None shuffle_then_stand) as E'
    by done.
  vm_compute in E'. injection E' as ->.
  repeat split; vm_compute; reflexivity.
Qed.

(** An episode changes [epsilon] by its one call of [decay_exploration],
    and leaves [alpha] and [gamma] alone. *)
Lemma episode_epsilon (self : t) (choice : option action) (g : Random) :
  ∃ r, episode self choice g = Ok r ∧
       epsilon (r_self r) = epsilon (decay_exploration self 0.9999) ∧
       alpha (r_self r) = alpha self ∧ gamma (r_self r) = gamma self.
Proof.
  destruct (episode_spec self choice g)
    as (c1 & c2 & c3 & c4 & rest & r & _ & Hr & _ & _ & _ & Ha & Hg & He & _).
  by exists r.
Qed.

(** [train_module] returns, whatever the number of games. *)
Lemma train_loop_total (n_games : nat) :
  ∀ self choice g trace,
    ∃ self' g' trace',
      train_loop n_games self choice g trace = Ok (self', g', trace').
Proof.
  induction n_games as [|n IH]; intros self choice g trace; cbn [train_loop].
  - by eexists _, _, _.
  - destruct (episode_spec self choice g)
      as (c1 & c2 & c3 & c4 & rest & r & _ & -> & _).
    rewrite bind_Ok. apply IH.
Qed.

Lemma train_module_total (self : t) (n_games : nat) (g : Random) :
  ∃ self' g' trace, train_module self n_games g = Ok (self', g', trace).
Proof. apply train_loop_total. Qed.

End Episode.

(** * Further properties of the program *)

(** ** The hand evaluator: the best way to count the Aces *)

Section BestTotal.
Import Player.




Lemma adjust_aces_lower (aces : nat) (s : Z) : Z.min s 12 ≤ adjust_aces aces s.
Proof.
  revert s. induction aces as [|n IH]; intros s; cbn [adjust_aces]; [lia|].
  destruct (Z.ltb_spec 21 s) as [Hs|Hs]; [|lia].
  specialize (IH (s - 10)). lia.
Qed.

Lemma sum_cards_lower (h : list Card.t) :
  Forall valid_card h →
  ∀ s a, ∃ s' a', sum_cards h s a = Ok (s', a') ∧
                  s + 2 * Z.of_nat (length h) ≤ s'.
Proof.
  induction 1 as [|c h Hc _ IH]; intros s a.
  - exists s, a. split; [reflexivity | cbn; lia].
  - rewrite sum_cards_cons.
    destruct (points_valid c Hc) as (v & k & -> & Hv). rewrite bind_Ok.
    cbn beta iota.
    destruct (IH (s + v) (k + a)%nat) as (s' & a' & -> & Hs).
    exists s', a'. split; [reflexivity|]. cbn [length]. lia.
Qed.

Lemma hand_sum_lower (h : list Card.t) :
  Forall valid_card h → (2 ≤ length h)%nat →
  ∃ total, hand_sum_of h = Ok total ∧ 4 ≤ total.
Proof.
  intros Hv Hlen.
  destruct (sum_cards_lower h Hv 0 0%nat) as (s & a & Hs & Hlow).
  unfold hand_sum_of. rewrite Hs, bind_Ok. cbn beta iota.
  eexists. split; [reflexivity|].
  pose proof (adjust_aces_lower a s). lia.
Qed.

(** X2. A hand of two or more cards of the deck counts at least 4, and a
    hand of exactly two (the deal) at most 21: nobody is bust before the
    first hit. *)
Theorem dealt_hand_bounds (h : list Card.t) :
  Forall valid_card h → (2 ≤ length h)%nat →
  ∃ total, hand_sum_of h = Ok total ∧ 4 ≤ total ∧
           (length h = 2%nat → total ≤ 21).
Proof.
  intros Hv Hlen.
  destruct (hand_sum_lower h Hv Hlen) as (total & Hsum & Hlow).
  exists total. split; [exact Hsum|]. split; [exact Hlow|].
  intros H2. destruct h as [|c1 [|c2 [|c3 h]]]; try discriminate.
  inversion Hv as [|? ? Hv1 Hv']; subst.
  inversion Hv' as [|? ? Hv2 _]; subst.
  destruct (two_cards_sum c1 c2 Hv1 Hv2) as (t & Ht & Hle).
  rewrite Hsum in Ht. by injection Ht as ->.
Qed.

Lemma dealt_hand_bounds_witness :
  Forall valid_card [spade "2"; heart "2"] ∧
  ∃ total, hand_sum_of [spade "2"; heart "2"] = Ok total ∧ 4 ≤ total.
Proof.
  assert (Forall valid_card [spade "2"; heart "2"]) as Hv.
  { constructor; [|constructor; [|constructor]];
      apply list_elem_of_In; cbn; tauto. }
  split; [exact Hv|].
  destruct (dealt_hand_bounds [spade "2"; heart "2"] Hv) as (t & Ht & Hlow & _);
    [cbn; lia|].
  by exists t.
Defined.

End BestTotal.

(** ** The state abstraction *)

Section StateAbstraction.
Import AI_Player.

(** X3. For a card of the deck [get_state] never fails; the state is the
    total it was given paired with the value of the card, which is the
    value the hand evaluator first gives that card: 11 for an Ace and
    for no other card, 10 for a Jack, Queen or King, and between 2 and 10
    otherwise. *)
Theorem get_state_upcard (player_sum : Z) (c : Card.t) :
  valid_card c →
  ∃ v k, get_state player_sum c = Ok (Some (player_sum, v)) ∧
         points c = Ok (v, k) ∧
         2 ≤ v ≤ 11 ∧
         (v = 11 ↔ Card.rank c = "A") ∧
         (Card.rank c ∈ ["J"; "Q"; "K"] → v = 10).
Proof.
  destruct c as [r u]. unfold valid_card, get_state, points. cbn [Card.rank].
  intros H. apply list_elem_of_In in H. cbn in H.
  repeat (destruct H as [<-|H];
          [eexists _, _; split; [vm_compute; reflexivity|];
           split; [vm_compute; reflexivity|];
           split; [lia|]; split;
           [split; intros; (reflexivity || discriminate || lia)
           |intros Hin; apply list_elem_of_In in Hin; cbn in Hin;
            first [reflexivity | intuition discriminate]]|]).
  destruct H.
Qed.

Lemma get_state_upcard_witness :
  valid_card (spade "K") ∧
  ∃ v, get_state 12 (spade "K") = Ok (Some (12, v)) ∧ 2 ≤ v ≤ 11.
Proof.
  assert (valid_card (spade "K")) as Hv
    by (apply list_elem_of_In; cbn; tauto).
  split; [exact Hv|].
  destruct (get_state_upcard 12 (spade "K") Hv) as (v & k & H1 & _ & H2 & _).
  by exists v.
Defined.

End StateAbstraction.

(** ** The table and the policy *)

Section TableAndPolicy.
Import AI_Player.
Local Open Scope Q_scope.

Lemma update_q_value_dom_eq (self : t) (st : state) (a : action)
    (reward : Q) (next_state : state) :
  dom (q_table (update_q_value self st a reward next_state))
  = {[st]} ∪ dom (q_table self).
Proof.
  unfold update_q_value. cbn [q_table]. rewrite dom_alter_L.
  destruct (q_table self !! st) as [e|] eqn:E.
  - assert (st ∈ dom (q_table self)) as Hin by (apply elem_of_dom; eauto).
    apply set_eq. intros k. rewrite elem_of_union, elem_of_singleton.
    split; [tauto | intros [->|?]; done].
  - by rewrite dom_insert_L.
Qed.

(** X4. [update_q_value] adds the key [state] to the table and no other:
    reading Q[next_state] through its default creates no entry, and no
    entry is ever removed. *)
Theorem update_q_value_dom (self : t) (st : state) (a : action)
    (reward : Q) (next_state : state) :
  dom (q_table (update_q_value self st a reward next_state))
  = {[st]} ∪ dom (q_table self) ∧
  (next_state ≠ st → q_table self !! next_state = None →
   q_table (update_q_value self st a reward next_state) !! next_state = None) ∧
  (size (q_table self) ≤ size (q_table (update_q_value self st a reward next_state))
   ≤ S (size (q_table self)))%nat.
Proof.
  pose proof (update_q_value_dom_eq self st a reward next_state) as Hdom.
  split; [exact Hdom|]. split.
  - intros Hne Hnone. by rewrite update_q_value_frame.
  - rewrite <- !size_dom, Hdom.
    destruct (decide (st ∈ dom (q_table self))) as [Hin|Hout].
    + replace ({[st]} ∪ dom (q_table self)) with (dom (q_table self)); [lia|].
      apply set_eq. intros k. rewrite elem_of_union, elem_of_singleton.
      split; [tauto | intros [->|?]; done].
    + rewrite size_union, size_singleton; [lia|].
      intros k Hk ?. apply elem_of_singleton in Hk as ->. done.
Qed.



(** X6. [choose_action] never fails and returns 'hit' or 'stand'.  When
    the first draw is below [epsilon] it explores: it takes a second
    draw, whose parity alone decides the action, whatever the table
    holds.  Otherwise it exploits and takes no second draw.  With
    [epsilon] at 1 or more, as a new agent has it, it always explores. *)
Theorem choose_action_draws (self : t) (st : state) (g : Random) :
  let r := (random g).1 in
  (r < epsilon self →
   choose_action self st g
   = Ok (if N.even (g 1%nat) then "hit" else "stand", λ n, g (S (S n)))) ∧
  (epsilon self <= r →
   ∃ c, choose_action self st g = Ok (c, λ n, g (S n)) ∧
        (c = "hit" ∨ c = "stand")) ∧
  (1 <= epsilon self → r < epsilon self).
Proof.
  cbv zeta. split; [|split].
  - intros Hr. unfold choose_action.
    destruct (random g) as [r g1] eqn:E. cbn [fst] in Hr.
    assert (Qle_bool (epsilon self) r = false) as ->.
    { destruct (Qle_bool (epsilon self) r) eqn:Hb; [|done].
      apply Qle_bool_iff in Hb. exfalso. eapply Qlt_not_le; eassumption. }
    cbn [negb]. unfold random, next in E. injection E as _ <-.
    unfold choice, randbelow, next. cbn [length].
    assert (g 1%nat mod N.of_nat 2 < 2)%N as Hlt
      by (apply N.mod_lt; discriminate).
    destruct (N.even (g 1%nat)) eqn:Hev.
    + apply N.even_spec in Hev as [k Hk].
      replace (g 1%nat mod N.of_nat 2)%N with 0%N; [reflexivity|].
      rewrite Hk. change (N.of_nat 2) with 2%N.
      by rewrite N.mul_comm, N.Div0.mod_mul.
    + assert (N.odd (g 1%nat) = true) as Hodd
        by (by rewrite <- N.negb_even, Hev).
      apply N.odd_spec in Hodd as [k Hk].
      replace (g 1%nat mod N.of_nat 2)%N with 1%N; [reflexivity|].
      rewrite Hk. change (N.of_nat 2) with 2%N.
      rewrite N.add_comm, N.mul_comm, N.Div0.mod_add. reflexivity.
  - intros Hr. unfold choose_action.
    destruct (random g) as [r g1] eqn:E. cbn [fst] in Hr.
    apply Qle_bool_iff in Hr. rewrite Hr. cbn [negb].
    unfold random, next in E. injection E as _ <-.
    destruct (Qle_bool (at_index (q_get self st) 1) (at_index (q_get self st) 0));
      [exists "hit" | exists "stand"]; auto.
  - intros He. eapply Qlt_le_trans; [apply random_unit_interval | done].
Qed.

End TableAndPolicy.

(** ** Dealing *)

Section Dealing.

(** X7. [n] calls of [deal_card] return the first [n] cards of the deck
    in their order and leave the others, when the deck holds that many;
    when it holds fewer the calls end in an [IndexError]. *)
Theorem deal_cards_take_drop (n : nat) (d : Deck.t) :
  ((n ≤ length d)%nat → deal_cards n d = Ok (take n d, drop n d)) ∧
  ((length d < n)%nat → deal_cards n d = Raise IndexError).
Proof.
  revert d. induction n as [|n IH]; intros d.
  - split; [by rewrite take_0, drop_0 | lia].
  - destruct d as [|c d]; cbn [deal_cards Deck.deal_card length].
    + split; [lia | reflexivity].
    + rewrite bind_Ok. cbn beta iota. destruct (IH d) as [IH1 IH2]. split.
      * intros H. rewrite IH1 by lia. reflexivity.
      * intros H. rewrite IH2 by lia. reflexivity.
Qed.

End Dealing.

(** ** Training: what many games leave behind *)

Section Training.
Import AI_Player.
Local Open Scope Q_scope.

Lemma same_table_refl (s : t) : same_table s s.
Proof. by repeat split. Qed.

Lemma same_table_trans (s1 s2 s3 : t) :
  same_table s1 s2 → same_table s2 s3 → same_table s1 s3.
Proof. intros (? & ? & ?) (? & ? & ?). repeat split; congruence. Qed.

Lemma update_q_value_same_table (s1 s2 : t) (st : state) (a : action)
    (reward : Q) (next_state : state) :
  same_table s1 s2 →
  same_table (update_q_value s1 st a reward next_state)
             (update_q_value s2 st a reward next_state).
Proof.
  intros (Hq & Ha & Hg).
  unfold same_table, update_q_value, next_max, q_get. cbn.
  rewrite Hq, Ha, Hg. by repeat split.
Qed.

Lemma replay_same_table (trace : list update) (s1 s2 : t) :
  same_table s1 s2 → same_table (replay s1 trace) (replay s2 trace).
Proof.
  revert s1 s2. induction trace as [|u trace IH]; intros s1 s2 H; [done|].
  apply IH. by apply update_q_value_same_table.
Qed.

(** What an episode does to the agent, as [train_module] sees it. *)
Lemma episode_learning (self : t) (choice : option action) (g : Random) :
  ∃ r hits last,
    episode self choice g = Ok r ∧
    r_trace r = hits ++ [last] ∧
    Forall hit_update hits ∧ terminal last ∧
    same_table (r_self r) (replay self (r_trace r)) ∧
    epsilon (r_self r) = max2 0.1 (epsilon self * 0.9999).
Proof.
  destruct (episode_spec self choice g)
    as (c1 & c2 & c3 & c4 & rest & r & _ & Hr & _ & _ & Hq & Ha & Hg & He
        & total & dealer_total & total0 & st0 & hits & last & _ & _ & _ & _
        & Htr & Hhits & Hlast & _).
  exists r, hits, last. repeat (split; [done|]). split; [|done].
  set (self0 := with_base self _) in *.
  destruct (replay_params (r_trace r) self) as (Hpa & Hpg & _).
  destruct (replay_same_table (r_trace r) self0 self) as (Hq' & _);
    [by repeat split|].
  repeat split; [by rewrite Hq, Hq' | by rewrite Ha, Hpa | by rewrite Hg, Hpg].
Qed.

Lemma terminal_count_episode (hits : list update) (last : update) :
  Forall hit_update hits → terminal last →
  length (filter terminal (hits ++ [last])) = 1%nat.
Proof.
  intros Hhits Hlast. rewrite filter_app, length_app.
  rewrite (filter_cons_True _ _ _ Hlast). cbn.
  replace (filter terminal hits) with (@nil update); [done|].
  symmetry. induction Hhits as [|u hits (_ & _ & Hu) _ IH]; [done|].
  by rewrite filter_cons_False.
Qed.

Lemma train_loop_learning (n_games : nat) :
  ∀ self choice g trace,
    ∃ self' g' new,
      train_loop n_games self choice g trace = Ok (self', g', trace ++ new) ∧
      same_table self' (replay self new) ∧
      epsilon self'
      = Nat.iter n_games (λ e, max2 0.1 (e * 0.9999)) (epsilon self) ∧
      length (filter terminal new) = n_games.
Proof.
  induction n_games as [|n IH]; intros self choice g trace; cbn [train_loop].
  - exists self, g, []. rewrite app_nil_r.
    split; [done|]. split; [apply same_table_refl|]. done.
  - destruct (episode_learning self choice g)
      as (r & hits & last & -> & Htr & Hhits & Hlast & Hsame & He).
    rewrite bind_Ok.
    destruct (IH (r_self r) (r_choice r) (r_random r) (trace ++ r_trace r))
      as (self' & g' & new & -> & Hsame' & He' & Hcount).
    exists self', g', (r_trace r ++ new).
    split; [by rewrite app_assoc|]. split; [|split].
    + rewrite replay_app. eapply same_table_trans; [exact Hsame'|].
      by apply replay_same_table.
    + rewrite He', He. by rewrite Nat.iter_succ_r.
    + rewrite filter_app, length_app, Hcount, Htr.
      by rewrite terminal_count_episode.
Qed.

(** X8. [train_module] never raises, whatever the number of games, the
    agent and the draws.  The agent it leaves has the [alpha] and [gamma]
    it had; its table is the result of the [update_q_value] calls of the
    trace, made in order on the table it had; its [epsilon] has been
    decayed once per game; and the trace holds exactly one terminal
    update per game. *)
Theorem train_module_learning (self : t) (n_games : nat) (g : Random) :
  ∃ self' g' trace,
    train_module self n_games g = Ok (self', g', trace) ∧
    alpha self' = alpha self ∧ gamma self' = gamma self ∧
    q_table self' = q_table (replay self trace) ∧
    epsilon self'
    = Nat.iter n_games (λ e, max2 0.1 (e * 0.9999)) (epsilon self) ∧
    length (filter terminal trace) = n_games.
Proof.
  destruct (train_loop_learning n_games self None g [])
    as (self' & g' & trace & Ht & (Hq & Ha & Hg) & He & Hcount).
  exists self', g', trace. cbn [app] in Ht.
  destruct (replay_params trace self) as (Hpa & Hpg & _).
  split; [exact Ht|]. split; [by rewrite Ha|]. split; [by rewrite Hg|]. done.
Qed.

End Training.

(** ** Training: the exploration rate reaches its floor *)

Section Floor.
Import AI_Player.
Local Open Scope Q_scope.

Lemma decayed_epsilon_cases (n : nat) (e : Q) :
  let en := Nat.iter (S n) (λ e, max2 0.1 (e * 0.9999)) e in
  en = 0.1 ∨ 0.1 < en.
Proof.
  cbv zeta. rewrite Nat.iter_succ.
  destruct (max2_cases 0.1 (Nat.iter n (λ e, max2 0.1 (e * 0.9999)) e * 0.9999))
    as [[_ ->]|[H ->]]; auto.
Qed.

(** Each decay multiplies by 1 - 1/10000, and
    (1 - x) * (1 + (n + 1) * x) <= 1 + n * x. *)
Lemma decayed_epsilon_bound (n : nat) (e : Q) :
  e <= 1 →
  let en := Nat.iter n (λ e, max2 0.1 (e * 0.9999)) e in
  en = 0.1 ∨ en * (10000 + inject_Z (Z.of_nat n)) <= 10000.
Proof.
  intros He. cbv zeta. induction n as [|n IH].
  - right. change (e * (10000 + 0) <= 10000). nra.
  - rewrite Nat.iter_succ.
    set (en := Nat.iter n (λ e, max2 0.1 (e * 0.9999)) e) in *.
    destruct (max2_cases 0.1 (en * 0.9999)) as [[_ ->]|[Hgt ->]]; [by left|].
    right. destruct IH as [IH|IH].
    + exfalso. rewrite IH in Hgt. vm_compute in Hgt. discriminate.
    + rewrite Nat2Z.inj_succ. unfold Z.succ. rewrite inject_Z_plus.
      change (inject_Z 1) with 1.
      set (q := inject_Z (Z.of_nat n)) in *.
      assert (0 <= q) as Hq.
      { unfold q. change 0 with (inject_Z 0). rewrite <- Zle_Qle. lia. }
      assert (0 < en) as Hen by nra.
      assert (0 <= en * (q + 1)) as Hprod by nra.
      nra.
Qed.

(** X9. From an [epsilon] of at most 1, as a new agent has it,
    [train_module] run over 90000 games or more leaves [epsilon] at
    exactly 0.1: the exploration rate reaches its floor and stays there. *)
Theorem train_module_reaches_floor (self : t) (n_games : nat) (g : Random) :
  epsilon self <= 1 → (90000 ≤ Z.of_nat n_games)%Z →
  ∃ self' g' trace,
    train_module self n_games g = Ok (self', g', trace) ∧
    epsilon self' = 0.1.
Proof.
  intros He Hn.
  destruct (train_loop_learning n_games self None g [])
    as (self' & g' & trace & Ht & _ & Heps & _).
  exists self', g', trace. split; [exact Ht|]. rewrite Heps.
  destruct n_games as [|n]; [cbn in Hn; lia|].
  destruct (decayed_epsilon_cases n (epsilon self)) as [H|Hgt]; [exact H|].
  destruct (decayed_epsilon_bound (S n) (epsilon self) He) as [H|Hle];
    [exact H|].
  exfalso.
  set (en := Nat.iter (S n) (λ e, max2 0.1 (e * 0.9999)) (epsilon self)) in *.
  assert (90000 <= inject_Z (Z.of_nat (S n))) as Hq.
  { change 90000 with (inject_Z 90000). by rewrite <- Zle_Qle. }
  set (q := inject_Z (Z.of_nat (S n))) in *.
  assert (0 <= (en - 0.1) * (q - 90000)) as Hprod by nra.
  nra.
Qed.

Lemma train_module_reaches_floor_witness :
  epsilon AI_Player.create <= 1 ∧
  ∃ self' g' trace,
    train_module AI_Player.create (Z.to_nat 90000) all_zero
    = Ok (self', g', trace) ∧
    epsilon self' = 0.1.
Proof.
  assert (epsilon AI_Player.create <= 1) as He by discriminate.
  split; [exact He|].
  apply (train_module_reaches_floor AI_Player.create (Z.to_nat 90000) all_zero He).
  rewrite Z2Nat.id; lia.
Defined.

End Floor.

(** ** Training: the cards and the states of an episode *)

Section EpisodeStates.
Import AI_Player.

(** X10. In every episode of [train_module] the two hands and what is
    left of the deck are together the 52 cards of a new deck: no card is
    dealt twice and none is lost. *)
Theorem episode_cards (self : t) (choice : option action) (g : Random) :
  ∃ r, episode self choice g = Ok r ∧
       Player.hand (base (r_self r)) ++ Player.hand (r_dealer r) ++ r_deck r
       ≡ₚ Deck.init ∧
       NoDup (Player.hand (base (r_self r)) ++ Player.hand (r_dealer r)
              ++ r_deck r).
Proof.
  destruct (episode_spec self choice g)
    as (c1 & c2 & c3 & c4 & rest & r & Hdeck & Hr & Hd & Hcards & _).
  pose proof (shuffle_deck_Permutation Deck.init g) as HP.
  rewrite Hdeck in HP.
  assert (Player.hand (base (r_self r)) ++ Player.hand (r_dealer r) ++ r_deck r
          ≡ₚ Deck.init) as Hperm.
  { rewrite <- HP, Hd. cbn [Player.hand].
    rewrite (Permutation_app_comm [c3; c4]), app_assoc, Hcards.
    change (c1 :: c2 :: c3 :: c4 :: rest) with ([c1; c2] ++ [c3; c4] ++ rest).
    change ((c1 :: c2 :: rest) ++ [c3; c4]) with ([c1; c2] ++ rest ++ [c3; c4]).
    by rewrite (Permutation_app_comm rest). }
  exists r. split; [exact Hr|]. split; [exact Hperm|].
  rewrite Hperm. apply init_NoDup.
Qed.

Lemma good_state_all (st : state) : good_state st → st ∈ all_good_states.
Proof.
  intros (p & d & -> & Hp & Hd). unfold all_good_states.
  apply elem_of_list_to_set, list_elem_of_In, in_flat_map.
  exists p. split.
  - apply list_elem_of_In, elem_of_seqZ. lia.
  - apply (in_map (λ d, Some (p, d))), list_elem_of_In, elem_of_seqZ. lia.
Qed.

Lemma all_good_states_size : size all_good_states = 180%nat.
Proof. vm_compute. reflexivity. Qed.

Lemma agent_turn_states (deck : Deck.t) :
  ∀ (self : t) (dealer : Dealer.t) (st : state) (choice : option action)
    (g : Random) (trace : list update) (upcard : Card.t) (r : round),
    Player.hand dealer !! 0%nat = Some upcard → valid_card upcard →
    Forall valid_card (Player.hand (base self)) → Forall valid_card deck →
    (1 ≤ length (Player.hand (base self)))%nat →
    good_state st → Forall (λ u, good_state (upd_state u)) trace →
    agent_turn deck self dealer st choice g trace = Ok r →
    Forall (λ u, good_state (upd_state u)) (r_trace r) ∧
    (Player.busted (base (r_self r)) = false → good_state (r_state r)).
Proof.
  induction deck as [|card deck IH];
    intros self dealer st choice g trace upcard r
           Hup Hupv Hhand Hdeck Hlen Hst Htrace Hr;
    rewrite agent_turn_hit in Hr;
    (destruct (Player.busted (base self)) eqn:Hflag;
     [by injection Hr as <-|]);
    destruct (choose_action_total self st g) as (c & g1 & Hc & [->| ->]);
    rewrite Hc, bind_Ok in Hr; cbn beta iota in Hr;
    change (String.eqb "hit" "stand") with false in Hr;
    change (String.eqb "stand" "stand") with true in Hr; cbn match in Hr;
    try (by injection Hr as <-).
  - discriminate.
  - rewrite hit_cons, bind_Ok in Hr. cbn beta iota in Hr.
    assert (Forall valid_card (Player.hand (base self) ++ [card])) as Hhand1.
    { apply Forall_app. split; [done|]. constructor; [|constructor].
      by inversion Hdeck. }
    destruct (hand_sum_lower (Player.hand (base self) ++ [card]) Hhand1)
      as (total1 & Hsum1 & Hlow1); [rewrite length_app; cbn; lia|].
    set (self1 := with_base self _) in Hr.
    rewrite (is_busted_spec self1 total1 Hsum1), bind_Ok in Hr.
    subst self1. cbn [base with_base Player.busted Player.hand] in Hr.
    rewrite Hflag in Hr. cbn [orb] in Hr.
    assert (Forall (λ u, good_state (upd_state u))
              (trace ++ [Update st "hit" (-1)%Q None])) as Htrace_bust
      by (apply Forall_app; split; [done | by constructor]).
    destruct (Z.ltb_spec 21 total1) as [Hbust|Hok].
    + rewrite bind_Ok in Hr. cbn beta iota in Hr.
      rewrite agent_turn_busted in Hr by reflexivity.
      injection Hr as <-. by split.
    + unfold get_hand_sum at 1, Player.get_hand_sum at 1 in Hr.
      cbn [base with_base Player.hand] in Hr.
      rewrite Hsum1, bind_Ok in Hr. unfold getitem in Hr.
      rewrite Hup, bind_Ok in Hr.
      destruct (get_state_valid total1 upcard Hupv) as (v & Hns & Hv).
      rewrite Hns, !bind_Ok in Hr. cbn beta iota in Hr.
      inversion Hdeck as [|? ? Hcard Hdeck']; subst.
      assert (good_state (Some (total1, v))) as Hgood
        by (exists total1, v; repeat split; lia).
      eapply (IH _ dealer _ _ _ _ upcard r Hup Hupv); [..|exact Hr]; try done.
      * cbn. rewrite length_app. cbn. lia.
      * apply Forall_app. split; [done | by constructor].
Qed.

Lemma play_round_unfold (self : t) (choice : option action) (g : Random)
    (c1 c2 c3 c4 : Card.t) (rest : list Card.t) :
  base self = {| Player.busted := false; Player.hand := [] |} →
  play_round self choice (c1 :: c2 :: c3 :: c4 :: rest) g
  = (total ← Player.hand_sum_of [c1; c2];
     st ← get_state total c3;
     r ← agent_turn rest
           (with_base self {| Player.busted := false; Player.hand := [c1; c2] |})
           {| Player.busted := false; Player.hand := [c3; c4] |}
           st choice g [];
     r ← settle r;
     Ok (Round (decay_exploration (r_self r) 0.9999)
               (r_dealer r) (r_deck r) (r_state r) (r_choice r) (r_random r)
               (r_trace r))).
Proof.
  intros Hbase. unfold play_round.
  rewrite hit_cons, bind_Ok. cbn beta iota.
  rewrite hit_cons, bind_Ok. cbn beta iota.
  rewrite player_hit_cons, bind_Ok. cbn beta iota.
  rewrite player_hit_cons, bind_Ok. cbn beta iota.
  cbn [base with_base Player.init Player.busted Player.hand app].
  rewrite Hbase. cbn [Player.busted Player.hand app].
  unfold get_hand_sum at 1, Player.get_hand_sum at 1.
  cbn [base with_base Player.hand].
  destruct (Player.hand_sum_of [c1; c2]) as [total|e]; [|reflexivity].
  rewrite !bind_Ok. unfold getitem at 1. cbn [Player.hand lookup list_lookup].
  by rewrite bind_Ok.
Qed.

Lemma episode_unfold (self : t) (choice : option action) (g : Random) :
  episode self choice g
  = play_round (with_base self {| Player.busted := false; Player.hand := [] |})
      choice (Deck.shuffle_deck Deck.init g).1 (Deck.shuffle_deck Deck.init g).2.
Proof.
  unfold episode. by destruct (Deck.shuffle_deck Deck.init g).
Qed.

Lemma episode_states (self : t) (choice : option action) (g : Random) :
  ∃ r, episode self choice g = Ok r ∧
       Forall (λ u, good_state (upd_state u)) (r_trace r).
Proof.
  destruct (episode_spec self choice g)
    as (c1 & c2 & c3 & c4 & rest & r & Hdeck & Hr & _).
  exists r. split; [exact Hr|].
  rewrite episode_unfold, Hdeck in Hr.
  pose proof (shuffle_deck_Permutation Deck.init g) as HP.
  rewrite Hdeck in HP.
  set (g1 := (Deck.shuffle_deck Deck.init g).2) in Hr. clearbody g1.
  clear Hdeck.
  assert (Forall valid_card (c1 :: c2 :: c3 :: c4 :: rest)) as Hvalid.
  { apply Forall_forall. intros c Hc. rewrite HP in Hc.
    by apply init_cards in Hc as [Hc _]. }
  inversion Hvalid as [|? ? Hv1 Hvalid1]; subst.
  inversion Hvalid1 as [|? ? Hv2 Hvalid2]; subst.
  inversion Hvalid2 as [|? ? Hv3 Hvalid3]; subst.
  inversion Hvalid3 as [|? ? Hv4 Hvalid4]; subst.
  rewrite play_round_unfold in Hr by reflexivity.
  assert (Forall valid_card [c1; c2]) as Hv12
    by (constructor; [done|]; constructor; [done | constructor]).
  destruct (hand_sum_lower [c1; c2] Hv12) as (total0 & Hsum0 & Hlow0);
    [cbn; lia|].
  destruct (two_cards_sum c1 c2 Hv1 Hv2) as (t & Ht & Hle0).
  rewrite Hsum0 in Ht. injection Ht as <-.
  rewrite Hsum0, bind_Ok in Hr.
  destruct (get_state_valid total0 c3 Hv3) as (v0 & Hst0 & Hv0).
  rewrite Hst0, bind_Ok in Hr.
  destruct (agent_turn rest _ _ _ choice g1 []) as [r1|e] eqn:Hturn;
    [|discriminate].
  rewrite bind_Ok in Hr.
  assert (good_state (Some (total0, v0))) as Hgood0
    by (exists total0, v0; repeat split; lia).
  destruct (agent_turn_states rest
              (with_base
                 (with_base self {| Player.busted := false; Player.hand := [] |})
                 {| Player.busted := false; Player.hand := [c1; c2] |})
              {| Player.busted := false; Player.hand := [c3; c4] |}
              (Some (total0, v0)) choice g1 [] c3 r1
              eq_refl Hv3 Hv12 Hvalid4 (le_S 1 1 (le_n 1)) Hgood0
              (Forall_nil_2 _) Hturn) as [Htr1 Hst1].
  unfold settle in Hr.
  destruct (Player.busted (base (r_self r1))) eqn:Hflag.
  - rewrite bind_Ok in Hr. by injection Hr as <-.
  - destruct (Player.get_hand_sum (r_dealer r1)) as [ds|]; [|discriminate].
    rewrite bind_Ok in Hr.
    destruct (get_hand_sum (r_self r1)) as [ss|]; [|discriminate].
    rewrite bind_Ok in Hr.
    destruct (local (r_choice r1)) as [c|]; [|discriminate].
    rewrite !bind_Ok in Hr. injection Hr as <-. cbn [r_trace].
    apply Forall_app. split; [done|]. constructor; [|constructor].
    by apply Hst1.
Qed.

Lemma replay_dom (trace : list update) (s : t) :
  dom (q_table (replay s trace))
  = dom (q_table s) ∪ list_to_set (upd_state <$> trace).
Proof.
  revert s. induction trace as [|u trace IH]; intros s.
  - cbn. apply set_eq. intros k. rewrite elem_of_union, elem_of_empty. tauto.
  - change (replay s (u :: trace))
      with (replay (update_q_value s (upd_state u) (upd_action u)
                      (upd_reward u) (upd_next u)) trace).
    rewrite IH, update_q_value_dom_eq. cbn [fmap list_fmap list_to_set].
    apply set_eq. intros k.
    rewrite !elem_of_union, elem_of_singleton. tauto.
Qed.

Lemma train_loop_S (n : nat) (self : t) (choice : option action) (g : Random)
    (trace : list update) :
  train_loop (S n) self choice g trace
  = (r ← episode self choice g;
     train_loop n (r_self r) (r_choice r) (r_random r) (trace ++ r_trace r)).
Proof. reflexivity. Qed.

Lemma train_loop_states (n_games : nat) :
  ∀ self choice g trace self' g' trace',
    Forall (λ u, good_state (upd_state u)) trace →
    train_loop n_games self choice g trace = Ok (self', g', trace') →
    Forall (λ u, good_state (upd_state u)) trace'.
Proof.
  induction n_games as [|n IH];
    intros self choice g trace self' g' trace' Htrace Ht.
  - change (Ok (self, g, trace) = Ok (self', g', trace')) in Ht.
    injection Ht as _ _ <-. exact Htrace.
  - rewrite train_loop_S in Ht.
    destruct (episode_states self choice g) as (r & Hr & Hgood).
    rewrite Hr, bind_Ok in Ht.
    refine (IH _ _ _ _ _ _ _ _ Ht). apply Forall_app. exact (conj Htrace Hgood).
Qed.

(** X11. Training never learns a value for a bust hand: when every key of
    the table is the state of a total from 4 to 21 against an upcard
    value from 2 to 11 (as in the empty table of a new agent), the same
    holds after [train_module], whatever the number of games; the table
    then never holds more than 180 entries. *)
Theorem train_module_table_keys (self : t) (n_games : nat) (g : Random) :
  (∀ k, k ∈ dom (q_table self) → good_state k) →
  ∃ self' g' trace,
    train_module self n_games g = Ok (self', g', trace) ∧
    Forall (λ u, good_state (upd_state u)) trace ∧
    (∀ k, k ∈ dom (q_table self') → good_state k) ∧
    (size (q_table self') ≤ 180)%nat.
Proof.
  intros Hkeys.
  destruct (train_loop_learning n_games self None g [])
    as (self' & g' & trace & Ht & (Hq & _) & _).
  cbn [app] in Ht.
  pose proof (train_loop_states n_games self None g [] self' g' trace
                (Forall_nil_2 _) Ht) as Hgood.
  assert (∀ k, k ∈ dom (q_table self') → good_state k) as Hkeys'.
  { intros k. rewrite Hq, replay_dom, elem_of_union, elem_of_list_to_set.
    intros [Hk|Hk]; [by apply Hkeys|].
    apply list_elem_of_fmap in Hk as (u & -> & Hu).
    by apply (proj1 (Forall_forall _ _) Hgood). }
  exists self', g', trace. split; [exact Ht|]. split; [exact Hgood|].
  split; [exact Hkeys'|].
  rewrite <- size_dom, <- all_good_states_size.
  apply subseteq_size. intros k Hk. by apply good_state_all, Hkeys'.
Qed.

Lemma train_module_table_keys_witness :
  (∀ k, k ∈ dom (q_table AI_Player.create) → good_state k) ∧
  ∃ self' g' trace,
    train_module AI_Player.create 3 all_zero = Ok (self', g', trace) ∧
    (size (q_table self') ≤ 180)%nat.
Proof.
  assert (∀ k, k ∈ dom (q_table AI_Player.create) → good_state k) as Hk.
  { intros k Hin. change (k ∈ dom (∅ : gmap state entry)) in Hin.
    rewrite dom_empty_L in Hin. by apply elem_of_empty in Hin. }
  split; [exact Hk|].
  destruct (train_module_table_keys AI_Player.create 3 all_zero Hk)
    as (self' & g' & trace & Ht & _ & _ & Hsize).
  exists self', g', trace. exact (conj Ht Hsize).
Defined.

End EpisodeStates.

(** ** The question of play_game *)

Section Question.
Import Console Play.

Example normalise_yes : normalise "  YeS " = "yes".
Proof. reflexivity. Qed.


(** The loop with [input] as the source writes it. *)
Lemma ask_again_input (lines out : list string) (query : string) :
  ask_again lines out query
  = if is_answer query
    then Done (query, {| stdin := lines; stdout := out |})
    else
      '(line, c1) ← input "Invalid input. Please enter 'yes' or 'no': "
                      {| stdin := lines; stdout := out |};
      ask_again (stdin c1) (stdout c1) (normalise line).
Proof. destruct lines; cbn [ask_again]; destruct (is_answer query); reflexivity. Qed.




End Question.

(** ** play_game: the dealer's turn *)

Section DealerTurn.

Lemma dealer_turn_busted (deck : Deck.t) (dealer : Dealer.t) :
  Player.busted dealer = true → Game.dealer_turn deck dealer = Ok (dealer, deck).
Proof. intros H. destruct deck; cbn [Game.dealer_turn]; by rewrite H. Qed.

Lemma dealer_turn_stand (deck : Deck.t) (dealer : Dealer.t) (total : Z) :
  Player.busted dealer = false → Player.get_hand_sum dealer = Ok total →
  17 < total → Game.dealer_turn deck dealer = Ok (dealer, deck).
Proof.
  intros Hflag Hsum Hgt.
  destruct deck; cbn [Game.dealer_turn]; rewrite Hflag;
    unfold Dealer.should_hit; rewrite Hsum, !bind_Ok;
    destruct (Z.leb_spec total 17); (reflexivity || lia).
Qed.

Lemma dealer_turn_draw (card : Card.t) (deck : Deck.t) (dealer : Dealer.t)
    (total : Z) :
  Player.busted dealer = false → Player.get_hand_sum dealer = Ok total →
  total ≤ 17 →
  Game.dealer_turn (card :: deck) dealer
  = (dealer2 ← Player.is_busted
                 {| Player.busted := false;
                    Player.hand := Player.hand dealer ++ [card] |};
     Game.dealer_turn deck dealer2).
Proof.
  intros Hflag Hsum Hle. cbn [Game.dealer_turn]. rewrite Hflag.
  unfold Dealer.should_hit. rewrite Hsum, !bind_Ok.
  destruct (Z.leb_spec total 17); [reflexivity | lia].
Qed.

Lemma dealer_turn_spec (deck : Deck.t) :
  ∀ (dealer : Dealer.t) (total : Z),
    Forall valid_card (Player.hand dealer) → Forall valid_card deck →
    (22 ≤ length (Player.hand dealer) + length deck)%nat →
    Player.busted dealer = false →
    Player.get_hand_sum dealer = Ok total → total ≤ 21 →
    ∃ dealer' deck' total',
      Game.dealer_turn deck dealer = Ok (dealer', deck') ∧
      Player.hand dealer' ++ deck' = Player.hand dealer ++ deck ∧
      Forall valid_card (Player.hand dealer') ∧
      Player.get_hand_sum dealer' = Ok total' ∧
      (if Player.busted dealer' then 21 < total' else 18 ≤ total' ≤ 21) ∧
      (18 ≤ total → dealer' = dealer) ∧
      (total ≤ 17 →
       (length (Player.hand dealer) < length (Player.hand dealer'))%nat).
Proof.
  induction deck as [|card deck IH];
    intros dealer total Hhand Hdeck Hlen Hflag Hsum Hle;
    destruct (Z.le_gt_cases total 17) as [Hdraw|Hstand].
  - exfalso. destruct (hand_sum_valid _ Hhand) as (t & Ht & Hge).
    unfold Player.get_hand_sum in Hsum. rewrite Hsum in Ht.
    injection Ht as <-. cbn [length] in Hlen. lia.
  - rewrite (dealer_turn_stand [] dealer total Hflag Hsum) by lia.
    exists dealer, [], total. rewrite Hflag.
    repeat split; (done || lia).
  - rewrite (dealer_turn_draw card deck dealer total Hflag Hsum Hdraw).
    assert (Forall valid_card (Player.hand dealer ++ [card])) as Hhand1.
    { apply Forall_app. split; [done|]. constructor; [|constructor].
      by inversion Hdeck. }
    destruct (hand_sum_valid _ Hhand1) as (total1 & Hsum1 & Hge1).
    unfold Player.is_busted at 1, Player.get_hand_sum at 1.
    cbn [Player.hand]. rewrite Hsum1, !bind_Ok.
    inversion Hdeck as [|? ? Hcard Hdeck']; subst.
    destruct (Z.ltb_spec 21 total1) as [Hbust|Hok].
    + rewrite dealer_turn_busted by reflexivity.
      eexists _, deck, total1. split; [reflexivity|]. cbn.
      split; [by rewrite <- app_assoc|]. split; [done|]. split; [done|].
      split; [done|]. split; [lia|]. intros _. rewrite length_app. cbn. lia.
    + destruct (IH {| Player.busted := false;
                      Player.hand := Player.hand dealer ++ [card] |} total1)
        as (dealer' & deck' & total' & Ht & Hcards & Hvalid & Hsum' & Hcase
            & Hsame & Hmore); try done.
      { cbn. rewrite length_app. cbn. cbn in Hlen. lia. }
      exists dealer', deck', total'. split; [exact Ht|]. cbn in Hcards.
      split; [by rewrite Hcards, <- app_assoc|]. split; [done|].
      split; [done|]. split; [done|]. split; [lia|]. intros _.
      assert (length (Player.hand dealer ++ [card])
              ≤ length (Player.hand dealer'))%nat as Hl.
      { destruct (Z.le_gt_cases total1 17) as [H17|H18].
        - specialize (Hmore H17). cbn in Hmore. lia.
        - rewrite (Hsame ltac:(lia)). cbn. lia. }
      rewrite length_app in Hl. cbn in Hl. lia.
  - rewrite (dealer_turn_stand (card :: deck) dealer total Hflag Hsum) by lia.
    exists dealer, (card :: deck), total. rewrite Hflag.
    repeat split; (done || lia).
Qed.

(** X13. In [play_game] the dealer, holding cards of the deck against a
    deck that cannot run out, draws while its total is 17 or less and
    stands on 18 or more: its turn ends either bust or on a total from
    18 to 21, never on 17; a dealer that starts on 18 or more draws
    nothing, and no card is lost between the hand and the deck. *)
Theorem dealer_turn_ends (deck : Deck.t) (dealer : Dealer.t) (total : Z) :
  Forall valid_card (Player.hand dealer) → Forall valid_card deck →
  (22 ≤ length (Player.hand dealer) + length deck)%nat →
  Player.busted dealer = false →
  Player.get_hand_sum dealer = Ok total → total ≤ 21 →
  ∃ dealer' deck' total',
    Game.dealer_turn deck dealer = Ok (dealer', deck') ∧
    Player.hand dealer' ++ deck' = Player.hand dealer ++ deck ∧
    Player.get_hand_sum dealer' = Ok total' ∧
    (Player.busted dealer' = true → 21 < total') ∧
    (Player.busted dealer' = false → 18 ≤ total' ≤ 21) ∧
    (18 ≤ total → dealer' = dealer ∧ deck' = deck) ∧
    (total ≤ 17 →
     (length (Player.hand dealer) < length (Player.hand dealer'))%nat).
Proof.
  intros Hhand Hdeck Hlen Hflag Hsum Hle.
  destruct (dealer_turn_spec deck dealer total Hhand Hdeck Hlen Hflag Hsum Hle)
    as (dealer' & deck' & total' & Ht & Hcards & _ & Hsum' & Hcase & Hsame
        & Hmore).
  exists dealer', deck', total'. split; [exact Ht|]. split; [exact Hcards|].
  split; [exact Hsum'|].
  split; [by intros Hb; rewrite Hb in Hcase|].
  split; [by intros Hb; rewrite Hb in Hcase|].
  split; [|exact Hmore].
  intros H18. pose proof (Hsame H18) as ->. split; [done|].
  by apply app_inv_head in Hcards.
Qed.

Lemma dealer_turn_ends_witness :
  let dealer := {| Player.busted := false;
                   Player.hand := [spade "10"; heart "7"] |} in
  Player.get_hand_sum dealer = Ok 17 ∧
  ∃ dealer' deck' total',
    Game.dealer_turn (drop 4 Deck.init) dealer = Ok (dealer', deck') ∧
    Player.get_hand_sum dealer' = Ok total' ∧
    (length (Player.hand dealer) < length (Player.hand dealer'))%nat.
Proof.
  cbv zeta. split; [reflexivity|].
  assert (Forall valid_card (drop 4 Deck.init)) as Hdeck.
  { apply Forall_forall. intros c Hc.
    assert (c ∈ Deck.init) as Hin
      by (rewrite <- (take_drop 4 Deck.init); apply elem_of_app; by right).
    by apply init_cards in Hin as [Hin _]. }
  assert (Forall valid_card [spade "10"; heart "7"]) as Hhand.
  { constructor; [|constructor; [|constructor]];
      apply list_elem_of_In; cbn; tauto. }
  destruct (dealer_turn_ends (drop 4 Deck.init)
              {| Player.busted := false;
                 Player.hand := [spade "10"; heart "7"] |} 17 Hhand Hdeck)
    as (dealer' & deck' & total' & Ht & _ & Hsum & _ & _ & _ & Hmore);
    [cbn; lia | reflexivity | reflexivity | lia |].
  exists dealer', deck', total'. split; [exact Ht|]. split; [exact Hsum|].
  apply Hmore. lia.
Defined.

End DealerTurn.

(** ** play_game: one hand *)

Section PlayHand.
Import AI_Player Console Play.

Lemma show_hand_app (p : Player.t) (out : list string) :
  show_hand p out = out ++ map (λ c, Card.str c +:+ " ") (Player.hand p).
Proof.
  unfold show_hand. revert out.
  induction (Player.hand p) as [|c h IH]; intros out; cbn [fold_left map].
  - by rewrite app_nil_r.
  - rewrite IH. unfold print_end. by rewrite <- app_assoc.
Qed.

Lemma choose_action_zero (self : AI_Player.t) (st : state) (g : Random) :
  (epsilon self == 0)%Q →
  choose_action self st g
  = Ok (if Qle_bool (at_index (q_get self st) 1) (at_index (q_get self st) 0)
        then "hit" else "stand", λ n, g (S n)).
Proof.
  intros He. unfold choose_action.
  pose proof (random_unit_interval g) as [Hr _].
  destruct (random g) as [r g1] eqn:E. cbn [fst] in Hr.
  assert (Qle_bool (epsilon self) r = true) as ->
    by (apply Qle_bool_iff; by rewrite He).
  cbn [negb]. unfold random, next in E. injection E as _ <-.
  by destruct (Qle_bool _ _).
Qed.

(** The loop with [p1.hit(deck)] as the source writes it. *)
Lemma bot_turn_hit (deck : Deck.t) (p1 : AI_Player.t) (dealer : Dealer.t) (st : state)
    (g : Random) (out : list string) :
  bot_turn deck p1 dealer st g out
  = if Player.busted (base p1)
    then Ok (Hand p1 dealer deck g out)
    else
      '(c, g1) ← choose_action p1 st g;
      if String.eqb c "hit"
      then
        '(p, deck') ← hit p1 deck;
        p2 ← is_busted p;
        let out1 := print_end "AI player's cards are now: " " " out in
        let out2 := show_hand (base p2) out1 in
        let out3 := print "" out2 in
        let out4 :=
          if Player.busted (base p2)
          then print "Bot busted out." out3
          else out3 in
        total ← get_hand_sum p2;
        upcard ← getitem (Player.hand dealer) 0;
        st' ← get_state total upcard;
        bot_turn deck' p2 dealer st' g1 out4
      else Ok (Hand p1 dealer deck g1 out).
Proof.
  destruct deck as [|card deck']; cbn [bot_turn];
    destruct (Player.busted (base p1)) eqn:Hb; try reflexivity;
    destruct (choose_action p1 st g) as [[c g1]|e]; try reflexivity;
    rewrite !bind_Ok; cbn beta iota;
    destruct (String.eqb c "hit"); try reflexivity;
    unfold hit, Player.hit; cbn [Deck.deal_card];
    rewrite ?bind_Ok, ?bind_Raise; cbn beta iota;
    rewrite ?bind_Ok, ?Hb; reflexivity.
Qed.

Lemma bot_turn_busted (deck : Deck.t) (p1 : AI_Player.t) (dealer : Dealer.t) (st : state)
    (g : Random) (out : list string) :
  Player.busted (base p1) = true →
  bot_turn deck p1 dealer st g out = Ok (Hand p1 dealer deck g out).
Proof. intros H. rewrite bot_turn_hit. by rewrite H. Qed.

Lemma bot_turn_spec (deck : Deck.t) :
  ∀ (p1 : AI_Player.t) (dealer : Dealer.t) (st : state) (g : Random)
    (out : list string) (upcard : Card.t) (total : Z),
    Player.hand dealer !! 0%nat = Some upcard → valid_card upcard →
    Forall valid_card (Player.hand (base p1)) → Forall valid_card deck →
    (22 ≤ length (Player.hand (base p1)) + length deck)%nat →
    Player.busted (base p1) = false →
    get_hand_sum p1 = Ok total → total ≤ 21 →
    ∃ h total',
      bot_turn deck p1 dealer st g out = Ok h ∧
      h_dealer h = dealer ∧
      same_learning (h_bot h) p1 ∧
      Player.hand (base (h_bot h)) ++ h_deck h
      = Player.hand (base p1) ++ deck ∧
      Forall valid_card (Player.hand (base (h_bot h))) ∧
      get_hand_sum (h_bot h) = Ok total' ∧
      (if Player.busted (base (h_bot h))
       then 21 < total' ∧ last (h_out h) = Some ("Bot busted out." +:+ nl)
       else total' ≤ 21) ∧
      (∃ more, h_out h = out ++ more) ∧
      ((epsilon p1 == 0)%Q →
       (∀ s, (at_index (q_get p1 s) 1 <= at_index (q_get p1 s) 0)%Q) →
       Player.busted (base (h_bot h)) = true).
Proof.
  induction deck as [|card deck IH];
    intros p1 dealer st g out upcard total
           Hup Hupv Hhand Hdeck Hlen Hflag Hsum Hle;
    rewrite bot_turn_hit, Hflag;
    destruct (choose_action_total p1 st g) as (c & g1 & Hc & [->| ->]);
    rewrite Hc, bind_Ok; cbn beta iota;
    change (String.eqb "hit" "hit") with true;
    change (String.eqb "stand" "hit") with false; cbn match.
  - exfalso. destruct (hand_sum_valid _ Hhand) as (t & Ht & Hge).
    unfold get_hand_sum, Player.get_hand_sum in Hsum.
    rewrite Hsum in Ht. injection Ht as <-. cbn [length] in Hlen. lia.
  - exists (Hand p1 dealer [] g1 out), total. cbn [h_bot h_dealer h_deck h_out].
    rewrite Hflag. repeat (split; [done|]).
    split; [by exists []; rewrite app_nil_r|].
    intros He Hgreedy. rewrite (choose_action_zero p1 st g He) in Hc.
    pose proof (proj2 (Qle_bool_iff _ _) (Hgreedy st)) as Hb.
    rewrite Hb in Hc. discriminate.
  - rewrite hit_cons, bind_Ok. cbn beta iota.
    set (p := with_base p1 _).
    assert (Forall valid_card (Player.hand (base p1) ++ [card])) as Hhand1.
    { apply Forall_app. split; [done|]. constructor; [|constructor].
      by inversion Hdeck. }
    destruct (hand_sum_valid _ Hhand1) as (total1 & Hsum1 & Hge1).
    rewrite (is_busted_spec p total1 Hsum1), bind_Ok.
    subst p. cbn [base with_base Player.busted Player.hand].
    rewrite Hflag. cbn [orb]. cbv zeta.
    set (p2 := with_base _ _).
    assert (get_hand_sum p2 = Ok total1) as Hsum2 by exact Hsum1.
    rewrite Hsum2, bind_Ok. unfold getitem. rewrite Hup, bind_Ok.
    destruct (get_state_valid total1 upcard Hupv) as (v & Hns & _).
    rewrite Hns, bind_Ok.
    inversion Hdeck as [|? ? Hcard Hdeck']; subst.
    assert (same_learning p2 p1) as Hsame by (by repeat split).
    destruct (Z.ltb_spec 21 total1) as [Hbust|Hok].
    + rewrite bot_turn_busted by reflexivity.
      eexists _, total1. split; [reflexivity|].
      cbn [h_bot h_dealer h_deck h_out base with_base p2 Player.busted
           Player.hand].
      split; [done|]. split; [done|]. split; [by rewrite <- app_assoc|].
      split; [done|]. split; [done|].
      split; [split; [done|]; unfold print, print_end; by rewrite last_snoc|].
      split; [|done].
      unfold print, print_end. rewrite show_hand_app.
      rewrite <- !app_assoc. by eexists.
    + destruct (IH p2 dealer (Some (total1, v)) g1
                  (print ""
                     (show_hand (base p2)
                        (print_end "AI player's cards are now: " " " out)))
                  upcard total1)
        as (h & total' & Ht & Hd & Hl & Hcards & Hvalid & Hsum' & Hcase
            & (more & Hout) & Hgreedy); try done.
      { cbn. rewrite length_app. cbn. cbn in Hlen. lia. }
      exists h, total'. split; [exact Ht|]. split; [done|].
      split; [by eapply same_learning_trans|].
      cbn [p2 base with_base Player.hand] in Hcards.
      split; [by rewrite Hcards, <- app_assoc|].
      split; [done|]. split; [done|]. split; [done|]. split.
      * rewrite Hout. unfold print, print_end. rewrite show_hand_app.
        rewrite <- !app_assoc. by eexists.
      * intros He Hg. apply Hgreedy; [done|].
        intros s. unfold q_get. exact (Hg s).
  - exists (Hand p1 dealer (card :: deck) g1 out), total.
    cbn [h_bot h_dealer h_deck h_out].
    rewrite Hflag. repeat (split; [done|]).
    split; [by exists []; rewrite app_nil_r|].
    intros He Hgreedy. rewrite (choose_action_zero p1 st g He) in Hc.
    pose proof (proj2 (Qle_bool_iff _ _) (Hgreedy st)) as Hb.
    rewrite Hb in Hc. discriminate.
Qed.

Lemma play_once_spec (p1 : AI_Player.t) (g : Random) (out : list string) :
  ∃ c1 c2 c3 c4 rest h total dealer_total,
    (Deck.shuffle_deck Deck.init g).1 = c1 :: c2 :: c3 :: c4 :: rest ∧
    play_once p1 g out = Ok h ∧
    q_table (h_bot h) = q_table p1 ∧ alpha (h_bot h) = alpha p1 ∧
    gamma (h_bot h) = gamma p1 ∧ epsilon (h_bot h) = 0%Q ∧
    (∃ more, h_out h = out ++ more) ∧
    Player.hand (base (h_bot h)) ++ Player.hand (h_dealer h) ++ h_deck h
    ≡ₚ Deck.init ∧
    get_hand_sum (h_bot h) = Ok total ∧
    Player.get_hand_sum (h_dealer h) = Ok dealer_total ∧
    (if Player.busted (base (h_bot h))
     then 21 < total ∧ last (h_out h) = Some ("Bot busted out." +:+ nl) ∧
          h_dealer h = {| Player.busted := false; Player.hand := [c3; c4] |}
     else total ≤ 21 ∧
          if Player.busted (h_dealer h)
          then 21 < dealer_total ∧
               last (h_out h)
               = Some ((nl +:+ "Dealer busted out. Bot wins!") +:+ nl)
          else 18 ≤ dealer_total ≤ 21 ∧
               last (h_out h)
               = Some ((if total <? dealer_total then nl +:+ "Dealer wins!"
                        else if dealer_total =? total then nl +:+ "Tie!"
                        else nl +:+ "Bot wins!") +:+ nl)) ∧
    ((∀ s, (at_index (q_get p1 s) 1 <= at_index (q_get p1 s) 0)%Q) →
     Player.busted (base (h_bot h)) = true).
Proof.
  unfold play_once.
  pose proof (shuffle_deck_Permutation Deck.init g) as HP.
  destruct (Deck.shuffle_deck Deck.init g) as [deck g1]. cbn [fst snd] in *.
  assert (length deck = 52%nat) as Hlen by (by rewrite HP).
  assert (Forall valid_card deck) as Hvalid.
  { apply Forall_forall. intros c Hc. rewrite HP in Hc.
    by apply init_cards in Hc as [Hc _]. }
  destruct deck as [|c1 [|c2 [|c3 [|c4 rest]]]]; try discriminate.
  exists c1, c2, c3, c4, rest.
  inversion Hvalid as [|? ? Hv1 Hvalid1]; subst.
  inversion Hvalid1 as [|? ? Hv2 Hvalid2]; subst.
  inversion Hvalid2 as [|? ? Hv3 Hvalid3]; subst.
  inversion Hvalid3 as [|? ? Hv4 Hvalid4]; subst.
  unfold play_hand.
  rewrite hit_cons, bind_Ok. cbn beta iota.
  rewrite hit_cons, bind_Ok. cbn beta iota.
  rewrite player_hit_cons, bind_Ok. cbn beta iota.
  rewrite player_hit_cons, bind_Ok. cbn beta iota.
  cbn [base with_base Player.init Player.busted Player.hand app
       q_table alpha gamma epsilon].
  set (p0 := with_base _ _).
  set (dealer := {| Player.busted := false; Player.hand := [c3; c4] |}).
  unfold show_first_card, getitem.
  cbn [dealer Player.hand lookup list_lookup]. rewrite !bind_Ok.
  destruct (two_cards_sum c1 c2 Hv1 Hv2) as (total0 & Hsum0 & Hle0).
  destruct (get_state_valid total0 c3 Hv3) as (v0 & Hst0 & _).
  assert (get_hand_sum p0 = Ok total0) as Hsum0' by exact Hsum0.
  rewrite Hsum0', !bind_Ok, Hst0, bind_Ok.
  set (out0 := print _ _).
  assert (∃ more, out0 = out ++ more) as (more0 & Hout0).
  { unfold out0, print, print_end. rewrite show_hand_app.
    rewrite <- !app_assoc. by eexists. }
  assert (Forall valid_card [c1; c2]) as Hv12
    by (constructor; [done|]; constructor; [done | constructor]).
  destruct (bot_turn_spec rest p0 dealer (Some (total0, v0)) g1 out0 c3 total0
              eq_refl Hv3 Hv12 Hvalid4)
    as (h & total & Ht & Hd & (Hq & Ha & Hg & He) & Hcards & Hvalid' & Hsum
        & Hcase & (more & Hout) & Hgreedy); try done.
  { cbn. cbn in Hlen. lia. }
  rewrite Ht, bind_Ok.
  cbn [p0 base with_base Player.hand q_table alpha gamma epsilon]
    in Hq, Ha, Hg, He, Hcards, Hgreedy.
  assert (Forall valid_card [c3; c4]) as Hv34
    by (constructor; [done|]; constructor; [done | constructor]).
  destruct (two_cards_sum c3 c4 Hv3 Hv4) as (dealer0 & Hdsum0 & Hdle0).
  assert (Player.hand (base (h_bot h)) ++ [c3; c4] ++ h_deck h ≡ₚ Deck.init)
    as Hperm.
  { rewrite <- HP. rewrite Permutation_app_swap_app, Hcards.
    change (c1 :: c2 :: c3 :: c4 :: rest) with ([c1; c2] ++ [c3; c4] ++ rest).
    by rewrite (Permutation_app_swap_app [c1; c2]). }
  assert ((∀ s, (at_index (q_get p1 s) 1 <= at_index (q_get p1 s) 0)%Q) →
          Player.busted (base (h_bot h)) = true) as Hgreedy'.
  { intros Hall. apply Hgreedy; [reflexivity|]. exact Hall. }
  unfold verdict.
  destruct (Player.busted (base (h_bot h))) eqn:Hflag.
  - (* the bot has busted: the dealer keeps its two cards *)
    destruct Hcase as [Hbust Hlast].
    exists h, total, dealer0. rewrite Hflag, Hd.
    split; [done|]. split; [done|]. repeat (split; [done|]).
    split; [exists (more0 ++ more); by rewrite Hout, Hout0, app_assoc|].
    split; [exact Hperm|]. done.
  - (* the dealer's turn *)
    assert (Forall valid_card (h_deck h) ∧ (29 ≤ length (h_deck h))%nat)
      as [Hdeckv Hdeckl].
    { assert (Forall valid_card (Player.hand (base (h_bot h)) ++ h_deck h))
        as Hall by (rewrite Hcards; by apply Forall_app).
      apply Forall_app in Hall as [_ Hall]. split; [done|].
      assert (length (Player.hand (base (h_bot h)) ++ h_deck h) = 50%nat) as Hl
        by (rewrite Hcards; cbn; cbn in Hlen; lia).
      rewrite length_app in Hl.
      destruct (hand_sum_valid _ Hvalid') as (t & Ht' & Hge).
      unfold get_hand_sum, Player.get_hand_sum in Hsum.
      rewrite Hsum in Ht'. injection Ht' as <-. lia. }
    rewrite Hd.
    destruct (dealer_turn_spec (h_deck h) dealer dealer0 Hv34 Hdeckv)
      as (dealer' & deck' & dtotal & Hturn & Hdcards & _ & Hdsum & Hdcase & _);
      [cbn; lia | reflexivity | exact Hdsum0 | exact Hdle0 |].
    rewrite Hturn, bind_Ok. cbn beta iota zeta.
    assert (Player.hand (base (h_bot h)) ++ Player.hand dealer' ++ deck'
            ≡ₚ Deck.init) as Hperm'.
    { rewrite Hdcards. exact Hperm. }
    destruct (Player.busted dealer') eqn:Hdflag.
    + rewrite bind_Ok.
      eexists _, total, dtotal. split; [reflexivity|]. split; [reflexivity|].
      cbn [h_bot h_dealer h_deck h_out]. rewrite Hflag, Hdflag.
      repeat (split; [done|]).
      split.
      { unfold print, print_end. rewrite show_hand_app, Hout, Hout0.
        rewrite <- !app_assoc. by eexists. }
      split; [exact Hperm'|]. split; [done|]. split; [done|].
      split; [|done]. split; [done|]. split; [done|].
      unfold print, print_end. by rewrite last_snoc.
    + rewrite Hdsum, bind_Ok, Hsum, !bind_Ok.
      eexists _, total, dtotal. split; [reflexivity|]. split; [reflexivity|].
      cbn [h_bot h_dealer h_deck h_out]. rewrite Hflag, Hdflag.
      repeat (split; [done|]).
      split.
      { unfold print, print_end. rewrite show_hand_app, Hout, Hout0.
        rewrite <- !app_assoc. by eexists. }
      split; [exact Hperm'|]. split; [done|]. split; [done|].
      split; [|done]. split; [done|]. split; [done|].
      unfold print, print_end. by rewrite last_snoc.
Qed.

(** X14. One hand of [play_game] never raises, whatever the bot, the
    draws and the output so far.  It changes nothing of what the bot has
    learnt (its table, [alpha] and [gamma]) and leaves its [epsilon] at
    0; it only adds to the output; and the two hands and the rest of the
    deck are the 52 cards of one deck, none dealt twice. *)
Theorem play_once_never_learns (p1 : AI_Player.t) (g : Random)
    (out : list string) :
  ∃ h, play_once p1 g out = Ok h ∧
       q_table (h_bot h) = q_table p1 ∧ alpha (h_bot h) = alpha p1 ∧
       gamma (h_bot h) = gamma p1 ∧ epsilon (h_bot h) = 0%Q ∧
       (∃ more, h_out h = out ++ more) ∧
       Player.hand (base (h_bot h)) ++ Player.hand (h_dealer h) ++ h_deck h
       ≡ₚ Deck.init ∧
       NoDup (Player.hand (base (h_bot h)) ++ Player.hand (h_dealer h)
              ++ h_deck h).
Proof.
  destruct (play_once_spec p1 g out)
    as (c1 & c2 & c3 & c4 & rest & h & total & dealer_total & _ & Hh & Hq & Ha
        & Hg & He & Hout & Hperm & _).
  exists h. repeat (split; [done|]). rewrite Hperm. apply init_NoDup.
Qed.

(** X15. The last line that a hand of [play_game] prints is its verdict.
    It is 'Bot busted out.' when the bot's total is above 21, and the
    dealer has then taken no turn.  Otherwise the dealer has played to a
    bust or to a total from 18 to 21, and the line is 'Dealer busted
    out. Bot wins!' for a dealer that is bust, 'Dealer wins!' when the
    dealer's total is the greater, 'Tie!' when the totals are equal and
    'Bot wins!' when the bot's is the greater. *)
Theorem play_once_verdict (p1 : AI_Player.t) (g : Random) (out : list string) :
  ∃ h total dealer_total,
    play_once p1 g out = Ok h ∧
    get_hand_sum (h_bot h) = Ok total ∧
    Player.get_hand_sum (h_dealer h) = Ok dealer_total ∧
    (Player.busted (base (h_bot h)) = true ↔ 21 < total) ∧
    (21 < total →
     last (h_out h) = Some ("Bot busted out." +:+ nl) ∧
     length (Player.hand (h_dealer h)) = 2%nat) ∧
    (total ≤ 21 →
     (Player.busted (h_dealer h) = true ↔ 21 < dealer_total) ∧
     18 ≤ dealer_total ∧
     (21 < dealer_total →
      last (h_out h) = Some ((nl +:+ "Dealer busted out. Bot wins!") +:+ nl)) ∧
     (dealer_total ≤ 21 → total < dealer_total →
      last (h_out h) = Some ((nl +:+ "Dealer wins!") +:+ nl)) ∧
     (dealer_total = total →
      last (h_out h) = Some ((nl +:+ "Tie!") +:+ nl)) ∧
     (dealer_total < total →
      last (h_out h) = Some ((nl +:+ "Bot wins!") +:+ nl))).
Proof.
  destruct (play_once_spec p1 g out)
    as (c1 & c2 & c3 & c4 & rest & h & total & dealer_total & _ & Hh & _ & _
        & _ & _ & _ & _ & Hsum & Hdsum & Hcase & _).
  exists h, total, dealer_total. repeat (split; [done|]).
  destruct (Player.busted (base (h_bot h))).
  - destruct Hcase as (Hbust & Hlast & Hd).
    split; [by split|]. split; [intros _; by rewrite Hd|]. lia.
  - destruct Hcase as [Hle Hcase].
    split; [split; [discriminate | lia]|]. split; [lia|]. intros _.
    destruct (Player.busted (h_dealer h)).
    + destruct Hcase as [Hdb Hlast].
      split; [by split|]. split; [lia|]. split; [done|].
      repeat split; intros; lia.
    + destruct Hcase as [Hdr Hlast].
      split; [split; [discriminate | lia]|]. split; [lia|].
      split; [lia|]. split; [|split].
      * intros _ Hlt. rewrite Hlast.
        by destruct (Z.ltb_spec total dealer_total); [|lia].
      * intros Heq. rewrite Hlast.
        destruct (Z.ltb_spec total dealer_total); [lia|].
        by destruct (Z.eqb_spec dealer_total total).
      * intros Hgt. rewrite Hlast.
        destruct (Z.ltb_spec total dealer_total); [lia|].
        by destruct (Z.eqb_spec dealer_total total); [lia|].
Qed.

(** X16. A bot whose table nowhere prefers stand to hit, as the empty
    table of an untrained bot, busts in every hand of [play_game]: ties
    go to hit, so it draws until its total is above 21. *)
Theorem play_once_untrained_busts (p1 : AI_Player.t) (g : Random)
    (out : list string) :
  (∀ s, (at_index (q_get p1 s) 1 <= at_index (q_get p1 s) 0)%Q) →
  ∃ h total,
    play_once p1 g out = Ok h ∧
    Player.busted (base (h_bot h)) = true ∧
    get_hand_sum (h_bot h) = Ok total ∧ 21 < total ∧
    last (h_out h) = Some ("Bot busted out." +:+ nl).
Proof.
  intros Hgreedy.
  destruct (play_once_spec p1 g out)
    as (c1 & c2 & c3 & c4 & rest & h & total & dealer_total & _ & Hh & _ & _
        & _ & _ & _ & _ & Hsum & _ & Hcase & Hbust).
  specialize (Hbust Hgreedy). rewrite Hbust in Hcase.
  destruct Hcase as (Hgt & Hlast & _).
  by exists h, total.
Qed.

Lemma play_once_untrained_busts_witness :
  (∀ s, (at_index (q_get AI_Player.create s) 1
         <= at_index (q_get AI_Player.create s) 0)%Q) ∧
  ∃ h, play_once AI_Player.create all_zero [] = Ok h ∧
       Player.busted (base (h_bot h)) = true.
Proof.
  assert (∀ s, (at_index (q_get AI_Player.create s) 1
                <= at_index (q_get AI_Player.create s) 0)%Q) as Hg.
  { intros s. rewrite (q_get_empty AI_Player.create s eq_refl). apply Qle_refl. }
  split; [exact Hg|].
  destruct (play_once_untrained_busts AI_Player.create all_zero [] Hg)
    as (h & total & Hh & Hb & _).
  exists h. exact (conj Hh Hb).
Defined.



End PlayHand.
